(** * Task record API: the request handlers of packages/backend/src/app.js

    The backend keeps one SQLite table [tasks] and serves five routes over it
    (list, create, update, toggle completion, delete).  This development
    embeds the table and the five handlers as functions on an explicit store
    and proves the properties the specification states about them.

    Conventions of the embedding.
    - The table is the list of its rows in rowid order together with the
      AUTOINCREMENT counter; a statement is a function on that list.
    - [CURRENT_TIMESTAMP] is an input of every mutating handler ([now]).
    - JavaScript strings are [string]s, one character per code unit; code
      units above 255 are outside the embedding.
    - Request fields the handlers inspect themselves ([title], [priority],
      [completed], the query parameters) range over every JSON value.  The
      fields [description] and [due_date] are passed to the database driver
      unexamined, so they are carried at the type the record's JSON shape
      gives them: absent, null or a string.  Any other JSON value there
      makes the driver throw and the handler answer 500; that path is
      outside the embedding.
    - A route parameter [:id] is bound to [WHERE id = ?] as text.  Which
      integer key a text equals is decided by the database engine, not by
      this repository: it is the section variable [key_of_text].
    - Row ids are unbounded integers; the engine's 64-bit ceiling is not
      modelled. *)

From Stdlib Require Import ZArith List String Ascii Bool Lia Permutation Sorted.
Import ListNotations.
Open Scope string_scope.
Open Scope Z_scope.

(** ** JavaScript values and string primitives *)

Module Js.

(** A JSON request value; [JUndefined] is an absent field, [JObject] stands
    for any array or object (the handlers never look inside one), and a
    number is carried as an integer (the handlers only test it for zero). *)
Inductive jsval : Type :=
| JUndefined
| JNull
| JBool (b : bool)
| JNum (n : Z)
| JStr (s : string)
| JObject.

(** ToBoolean. *)
Definition truthy (v : jsval) : bool :=
  match v with
  | JUndefined | JNull => false
  | JBool b => b
  | JNum n => negb (n =? 0)
  | JStr s => negb (s =? "")%string
  | JObject => true
  end.

Definition is_undefined (v : jsval) : bool :=
  match v with JUndefined => true | _ => false end.

(** [v === 'lit'] for a string literal. *)
Definition strict_eq_str (v : jsval) (lit : string) : bool :=
  match v with JStr s => (s =? lit)%string | _ => false end.

(** [arr.includes(v)] for an array of string literals. *)
Definition includes (arr : list string) (v : jsval) : bool :=
  match v with
  | JStr s => existsb (String.eqb s) arr
  | _ => false
  end.

(** WhiteSpace and LineTerminator code units below 256:
    TAB, LF, VT, FF, CR, SP, NBSP. *)
Definition is_space (c : ascii) : bool :=
  let n := N_of_ascii c in
  ((9 <=? n) && (n <=? 13) || (n =? 32) || (n =? 160))%N.

Fixpoint trimStart (s : string) : string :=
  match s with
  | EmptyString => EmptyString
  | String c r => if is_space c then trimStart r else s
  end.

Fixpoint trimEnd (s : string) : string :=
  match s with
  | EmptyString => EmptyString
  | String c r =>
      match trimEnd r with
      | EmptyString => if is_space c then EmptyString else String c EmptyString
      | r' => String c r'
      end
  end.

(** [String.prototype.trim]. *)
Definition trim (s : string) : string := trimEnd (trimStart s).

(** The value of a digit in the given radix, if it is one. *)
Definition digit_value (radix : Z) (c : ascii) : option Z :=
  let n := Z.of_N (N_of_ascii c) in
  let v :=
    if (48 <=? n) && (n <=? 57) then Some (n - 48)
    else if (97 <=? n) && (n <=? 122) then Some (n - 87)
    else if (65 <=? n) && (n <=? 90) then Some (n - 55)
    else None in
  match v with
  | Some d => if d <? radix then Some d else None
  | None => None
  end.

(** The longest prefix of digits, read in the radix; [None] when the prefix
    is empty. *)
Fixpoint read_digits (radix : Z) (s : string) (acc : option Z) : option Z :=
  match s with
  | EmptyString => acc
  | String c r =>
      match digit_value radix c with
      | Some d =>
          read_digits radix r
            (Some (match acc with Some a => a * radix + d | None => d end))
      | None => acc
      end
  end.

(** [parseInt(s)] with no radix argument; [None] is NaN.  The numeric value
    is exact (the rounding of integers beyond 2^53 is not modelled). *)
Definition parseInt (s : string) : option Z :=
  let s1 := trimStart s in
  let '(sign, s2) :=
    match s1 with
    | String "-" r => (-1, r)
    | String "+" r => (1, r)
    | _ => (1, s1)
    end in
  let '(radix, s3) :=
    match s2 with
    | String "0" (String x r) =>
        if (x =? "x")%char || (x =? "X")%char then (16, r) else (10, s2)
    | _ => (10, s2)
    end in
  option_map (Z.mul sign) (read_digits radix s3 None).

(** [isNaN(parseInt(s))]. *)
Definition isNaN_parseInt (s : string) : bool :=
  match parseInt s with Some _ => false | None => true end.

End Js.
Import Js.

(** ** The [tasks] table *)

(** One row of [tasks].  [description] and [due_date] are nullable TEXT;
    [completed] is an INTEGER column, [id] the INTEGER PRIMARY KEY. *)
Record task : Type := mkTask {
  id : Z;
  title : string;
  description : option string;
  completed : Z;
  priority : string;
  due_date : option string;
  created_at : string;
  updated_at : string
}.

(** The table: its rows in rowid order, and the AUTOINCREMENT counter
    (the largest rowid ever handed out). *)
Record store : Type := mkStore {
  rows : list task;
  seq : Z
}.

Definition empty_store : store := mkStore [] 0.

Definition max_rowid (l : list task) : Z :=
  fold_right (fun t m => Z.max (id t) m) 0 l.

(** [INSERT INTO tasks (title, description, priority, due_date) VALUES (?,?,?,?)]:
    the new rowid is one more than the largest ever used, [completed] takes
    its default 0 and both timestamps take CURRENT_TIMESTAMP.  Returns the
    store and [lastInsertRowid]. *)
Definition insert_task (st : store) (now : string)
    (ttl : string) (descr : option string) (prio : string)
    (due : option string) : store * Z :=
  let k := Z.max (max_rowid (rows st)) (seq st) + 1 in
  (mkStore (rows st ++ [mkTask k ttl descr 0 prio due now now]) k, k).

(** [SELECT * FROM tasks WHERE id = ?] with [.get], for an integer key. *)
Definition get_by_key (st : store) (k : Z) : option task :=
  find (fun t => id t =? k) (rows st).

(** ** Request and response shapes *)

(** A field handed to the driver unexamined: absent, null or a string. *)
Inductive textval : Type :=
| TAbsent
| TNull
| TText (s : string).

(** [req.body] of create and update. *)
Record body : Type := mkBody {
  b_title : jsval;
  b_description : textval;
  b_priority : jsval;
  b_due_date : textval;
  b_completed : jsval
}.

(** [req.query] of list. *)
Record query : Type := mkQuery {
  q_status : jsval;
  q_priority : jsval;
  q_sort : jsval
}.

Inductive payload : Type :=
| PTask (t : option task)
| PTasks (l : list task)
| PDeleted (message : string) (deleted : option Z)
| PError (error : string).

Record response : Type := mkResponse {
  status : Z;
  json : payload
}.

Definition fail (code : Z) (msg : string) : response :=
  mkResponse code (PError msg).

Definition validPriorities : list string := ["high"; "medium"; "low"].

(** ** Seed data *)

Definition initialTasks : list (string * option string * string * option string) :=
  [ ("Complete project documentation",
     Some "Write comprehensive docs for the TODO app", "high", Some "2026-02-15");
    ("Review pull requests",
     Some "Review and merge pending PRs", "medium", Some "2026-02-14");
    ("Update dependencies",
     Some "Check and update npm packages", "low", None) ].

(** [initialTasks.forEach(task => insertStmt.run(...))]; the n-th insert
    reads the clock as [clock n]. *)
Fixpoint seed (st : store) (clock : nat -> string) (n : nat)
    (l : list (string * option string * string * option string)) : store :=
  match l with
  | [] => st
  | (ttl, descr, prio, due) :: r =>
      seed (fst (insert_task st (clock n) ttl descr prio due)) clock (S n) r
  end.

Definition init_store (clock : nat -> string) : store :=
  seed empty_store clock 0%nat initialTasks.

(** ** GET /api/tasks *)

(** The WHERE clause built from [status] and [priority]. *)
Definition where_clause (q : query) (t : task) : bool :=
  (if strict_eq_str (q_status q) "active" then completed t =? 0
   else if strict_eq_str (q_status q) "completed" then completed t =? 1
   else true)
  &&
  (if truthy (q_priority q) && includes validPriorities (q_priority q)
   then match q_priority q with
        | JStr p => (priority t =? p)%string
        | _ => true
        end
   else true).

(** [CASE priority WHEN 'high' THEN 1 WHEN 'medium' THEN 2 WHEN 'low' THEN 3 END];
    [None] is the NULL of a priority outside the three. *)
Definition priority_rank (p : string) : option Z :=
  if (p =? "high")%string then Some 1
  else if (p =? "medium")%string then Some 2
  else if (p =? "low")%string then Some 3
  else None.

(** Ascending order of a nullable integer key: NULL sorts first. *)
Definition rank_leb (a b : option Z) : bool :=
  match a, b with
  | None, _ => true
  | Some _, None => false
  | Some x, Some y => x <=? y
  end.

(** [ORDER BY due_date IS NULL, due_date ASC]. *)
Definition due_date_leb (a b : option string) : bool :=
  match a, b with
  | Some x, Some y => String.leb x y
  | Some _, None => true
  | None, Some _ => false
  | None, None => true
  end.

(** The ORDER BY clause selected by [sort], as "a may precede b". *)
Definition order_clause (q : query) (a b : task) : bool :=
  if strict_eq_str (q_sort q) "due_date" then due_date_leb (due_date a) (due_date b)
  else if strict_eq_str (q_sort q) "priority" then
    rank_leb (priority_rank (priority a)) (priority_rank (priority b))
  else if strict_eq_str (q_sort q) "title" then String.leb (title a) (title b)
  else String.leb (created_at b) (created_at a).

(** Sorting as the engine does it, up to the order of ties (which SQL leaves
    open): each row is placed before the first row it may precede. *)
Fixpoint place (leb : task -> task -> bool) (x : task) (l : list task) : list task :=
  match l with
  | [] => [x]
  | y :: r => if leb x y then x :: l else y :: place leb x r
  end.

Fixpoint order_by (leb : task -> task -> bool) (l : list task) : list task :=
  match l with
  | [] => []
  | x :: r => place leb x (order_by leb r)
  end.

Definition select_tasks (st : store) (q : query) : list task :=
  order_by (order_clause q) (filter (where_clause q) (rows st)).

Definition list_tasks (st : store) (q : query) : response :=
  mkResponse 200 (PTasks (select_tasks st q)).

(** ** POST /api/tasks *)

(** The two title checks shared by create and update: the error message of
    the first check that fails. *)
Definition title_error (ttl : jsval) : option string :=
  match ttl with
  | JStr s =>
      if negb (truthy ttl) || (trim s =? "")%string
      then Some "Task title is required"
      else if Z.of_nat (String.length s) >? 200
      then Some "Task title must be 200 characters or less"
      else None
  | _ => Some "Task title is required"
  end.

(** [v || null] for a text field. *)
Definition or_null (v : textval) : option string :=
  match v with
  | TText s => if (s =? "")%string then None else Some s
  | _ => None
  end.

Definition create_task (st : store) (now : string) (b : body) : store * response :=
  match title_error (b_title b) with
  | Some msg => (st, fail 400 msg)
  | None =>
      let taskPriority :=
        if truthy (b_priority b) && includes validPriorities (b_priority b)
        then b_priority b else JStr "medium" in
      match b_title b, taskPriority with
      | JStr ttl, JStr prio =>
          let '(st', k) :=
            insert_task st now (trim ttl) (or_null (b_description b)) prio
              (or_null (b_due_date b)) in
          (st', mkResponse 201 (PTask (get_by_key st' k)))
      | _, _ => (st, fail 500 "Failed to create task")
      end
  end.

(** ** Routes addressed by [:id] *)

Section ById.

(** The integer key, if any, that the engine takes a text bound to
    [WHERE id = ?] to be equal to. *)
Variable key_of_text : string -> option Z.

(** Does the row match [WHERE id = ?] for the bound text? *)
Definition id_matches (txt : string) (t : task) : bool :=
  match key_of_text txt with
  | Some k => id t =? k
  | None => false
  end.

(** [db.prepare('SELECT * FROM tasks WHERE id = ?').get(id)]. *)
Definition get_by_id (st : store) (txt : string) : option task :=
  find (id_matches txt) (rows st).

(** [!id || isNaN(parseInt(id))]. *)
Definition bad_id (txt : string) : bool :=
  (txt =? "")%string || isNaN_parseInt txt.

(** The SET list the update handler assembles; [None] leaves a column out. *)
Record assignments : Type := mkSet {
  set_title : option string;
  set_description : option (option string);
  set_priority : option string;
  set_due_date : option (option string);
  set_completed : option Z
}.

Definition from_option {A : Type} (o : option A) (d : A) : A :=
  match o with Some a => a | None => d end.

(** One row under [UPDATE tasks SET ..., updated_at = CURRENT_TIMESTAMP]. *)
Definition assign (a : assignments) (now : string) (t : task) : task :=
  mkTask (id t)
    (from_option (set_title a) (title t))
    (from_option (set_description a) (description t))
    (from_option (set_completed a) (completed t))
    (from_option (set_priority a) (priority t))
    (from_option (set_due_date a) (due_date t))
    (created_at t)
    now.

(** [UPDATE tasks SET ... WHERE id = ?]. *)
Definition update_where (st : store) (txt : string) (f : task -> task) : store :=
  mkStore (map (fun t => if id_matches txt t then f t else t) (rows st)) (seq st).

(** A text field as it is pushed onto [params] when it is not undefined. *)
Definition pushed_text (v : textval) : option (option string) :=
  match v with
  | TAbsent => None
  | TNull => Some None
  | TText s => Some (Some s)
  end.

(** The [updates]/[params] pair built from the body once it has passed
    validation: one entry per field that is not undefined. *)
Definition updates (b : body) : assignments :=
  mkSet
    (match b_title b with JStr s => Some (trim s) | _ => None end)
    (pushed_text (b_description b))
    (match b_priority b with JStr p => Some p | _ => None end)
    (pushed_text (b_due_date b))
    (if is_undefined (b_completed b) then None
     else Some (if truthy (b_completed b) then 1 else 0)).

(** PUT /api/tasks/:id *)
Definition update_task (st : store) (now : string) (txt : string) (b : body)
    : store * response :=
  if bad_id txt then (st, fail 400 "Valid task ID is required")
  else match get_by_id st txt with
  | None => (st, fail 404 "Task not found")
  | Some existingTask =>
    match (if is_undefined (b_title b) then None else title_error (b_title b)) with
    | Some msg => (st, fail 400 msg)
    | None =>
      if negb (is_undefined (b_priority b))
         && negb (includes validPriorities (b_priority b))
      then (st, fail 400 "Invalid priority level")
      else
        match b_title b, b_priority b with
        | (JUndefined | JStr _), (JUndefined | JStr _) =>
            let st' := update_where st txt (assign (updates b) now) in
            (st', mkResponse 200 (PTask (get_by_id st' txt)))
        | _, _ => (st, fail 500 "Failed to update task")
        end
    end
  end.

(** PATCH /api/tasks/:id/complete *)
Definition toggle_task (st : store) (now : string) (txt : string)
    : store * response :=
  if bad_id txt then (st, fail 400 "Valid task ID is required")
  else match get_by_id st txt with
  | None => (st, fail 404 "Task not found")
  | Some existingTask =>
      let newCompletedStatus := if completed existingTask =? 1 then 0 else 1 in
      let st' :=
        update_where st txt
          (assign (mkSet None None None None (Some newCompletedStatus)) now) in
      (st', mkResponse 200 (PTask (get_by_id st' txt)))
  end.

(** [DELETE FROM tasks WHERE id = ?]: the store and [result.changes]. *)
Definition delete_where (st : store) (txt : string) : store * Z :=
  (mkStore (filter (fun t => negb (id_matches txt t)) (rows st)) (seq st),
   Z.of_nat (List.length (filter (id_matches txt) (rows st)))).

(** DELETE /api/tasks/:id *)
Definition delete_task (st : store) (txt : string) : store * response :=
  if bad_id txt then (st, fail 400 "Valid task ID is required")
  else match get_by_id st txt with
  | None => (st, fail 404 "Task not found")
  | Some existingTask =>
      let '(st', changes) := delete_where st txt in
      if changes >? 0
      then (st', mkResponse 200
                   (PDeleted "Task deleted successfully" (parseInt txt)))
      else (st', fail 404 "Task not found")
  end.

(** ** The API as a transition system *)

Inductive request : Type :=
| ListTasks (q : query)
| CreateTask (b : body)
| UpdateTask (txt : string) (b : body)
| ToggleTask (txt : string)
| DeleteTask (txt : string).

(** One request served at clock reading [now]. *)
Definition handle (st : store) (now : string) (r : request) : store * response :=
  match r with
  | ListTasks q => (st, list_tasks st q)
  | CreateTask b => create_task st now b
  | UpdateTask txt b => update_task st now txt b
  | ToggleTask txt => toggle_task st now txt
  | DeleteTask txt => delete_task st txt
  end.

(** The stores the server can be in: the seeded table, then any requests. *)
Inductive reachable : store -> Prop :=
| reach_init (clock : nat -> string) : reachable (init_store clock)
| reach_step (st : store) (now : string) (r : request) :
    reachable st -> reachable (fst (handle st now r)).

End ById.

(** A coercion that reads canonical decimal numerals and nothing else; the
    examples below run the handlers with it. *)
Definition decimal_key (txt : string) : option Z :=
  match txt with
  | EmptyString => None
  | String c r =>
      if forallb (fun d => match digit_value 10 d with Some _ => true | None => false end)
           (list_ascii_of_string txt)
      then read_digits 10 txt None
      else None
  end.

(** ** Vocabulary of the statements *)

(** A title the two checks let through. *)
Definition valid_title (s : string) : Prop :=
  trim s <> "" /\ (String.length s <= 200)%nat.

(** Missing, not a string, or blank after trimming. *)
Definition blank_or_missing (v : jsval) : Prop :=
  match v with
  | JStr s => trim s = ""
  | _ => True
  end.

(** The priority create stores: the supplied one when it is one of the
    three, [medium] otherwise. *)
Definition create_priority (v : jsval) : string :=
  match v with
  | JStr p => if existsb (String.eqb p) validPriorities then p else "medium"
  | _ => "medium"
  end.

(** A title field that an update lets through: absent, or a valid string. *)
Definition update_title_ok (v : jsval) : Prop :=
  v = JUndefined \/ exists s, v = JStr s /\ valid_title s.

(** A priority field that an update lets through: absent, or one of the three. *)
Definition update_priority_ok (v : jsval) : Prop :=
  v = JUndefined \/ includes validPriorities v = true.

(** The clock of the examples: every seed insert reads the same second. *)
Definition sample_clock (n : nat) : string := "2026-02-01 08:00:00".

(** The error message of the length check. *)
Definition long_title_message : string :=
  "Task title must be 200 characters or less".

(** A one-letter title followed by 200 spaces: it trims to one character. *)
Definition padded_title : string :=
  String "a" (string_of_list_ascii (repeat " "%char 200)).

(** The status filter in the specification's words. *)
Definition status_selects (v : jsval) (t : task) : Prop :=
  (v = JStr "active" -> completed t = 0) /\
  (v = JStr "completed" -> completed t = 1).

(** The priority filter in the specification's words: only a parameter equal
    to one of the three levels constrains the row. *)
Definition priority_selects (v : jsval) (t : task) : Prop :=
  forall p, v = JStr p -> In p validPriorities -> priority t = p.

(** The ORDER BY clause of sort=priority. *)
Definition by_rank (a b : task) : bool :=
  rank_leb (priority_rank (priority a)) (priority_rank (priority b)).

(** The rank order the specification names: high, then medium, then low. *)
Definition ranked_before (p p' : string) : Prop :=
  (p = "high" /\ p' = "medium") \/ (p = "medium" /\ p' = "low") \/
  (p = "high" /\ p' = "low").

(** The seeded table after one more, high-priority task is created. *)
Definition release_store : store :=
  fst (create_task (init_store sample_clock) "2026-03-01 09:00:00"
         (mkBody (JStr "Ship release") TAbsent (JStr "high") TAbsent JUndefined)).

(** A row within the record's JSON shape. *)
Definition row_ok (t : task) : Prop :=
  (completed t = 0 \/ completed t = 1) /\ In (priority t) validPriorities.

(** Ids are unique and every row is within shape. *)
Definition store_ok (st : store) : Prop :=
  NoDup (map id (rows st)) /\ Forall row_ok (rows st).

(** The path segment [txt] denotes the id [k], to JavaScript's [parseInt]
    and to the engine's comparison alike. *)
Definition addresses (key_of_text : string -> option Z) (txt : string) (k : Z) : Prop :=
  parseInt txt = Some k /\ key_of_text txt = Some k.


(** The table after a create with an invalid priority, an update that sets
    completed to a truthy number, and a toggle. *)
Definition busy_store : store :=
  let s1 := fst (handle decimal_key (init_store sample_clock) "2026-03-01 09:00:00"
                   (CreateTask (mkBody (JStr "Buy milk") TAbsent (JStr "urgent")
                                  TAbsent JUndefined))) in
  let s2 := fst (handle decimal_key s1 "2026-03-01 09:01:00"
                   (UpdateTask "4" (mkBody JUndefined TAbsent (JStr "low") TAbsent
                                      (JNum 7)))) in
  fst (handle decimal_key s2 "2026-03-01 09:02:00" (ToggleTask "1")).

(** ** Request traces *)

(** The store after serving the requests of a trace in order, each at its
    own clock reading. *)
Fixpoint run (key_of_text : string -> option Z) (st : store)
    (trace : list (string * request)) : store :=
  match trace with
  | [] => st
  | (now, r) :: rest => run key_of_text (fst (handle key_of_text st now r)) rest
  end.

(** ** The client: packages/frontend *)

(** [validateTaskTitle] of utils/taskUtils.js, on the string the title field
    of the form holds: the error message, or [None] for null. *)
Definition validateTaskTitle (ttl : string) : option string :=
  if (ttl =? "")%string || (trim ttl =? "")%string
  then Some "Task title is required"
  else if Z.of_nat (String.length ttl) >? 200
  then Some "Task title must be 200 characters or less"
  else None.

(** The state of the task dialog (components/TaskDialog.js): four strings
    bound to the form controls. *)
Record formData : Type := mkForm {
  f_title : string;
  f_description : string;
  f_priority : string;
  f_due_date : string
}.

(** The object [handleSubmit] passes to [onSave]:
    [{...formData, due_date: formData.due_date || null}], which the service
    sends as the JSON body. *)
Definition taskData (fd : formData) : body :=
  mkBody (JStr (f_title fd)) (TText (f_description fd)) (JStr (f_priority fd))
    (if (f_due_date fd =? "")%string then TNull else TText (f_due_date fd))
    JUndefined.

(** [handleSubmit] of the dialog: [inl] is [setErrors({ title: titleError })]
    with nothing saved, [inr] the call of [onSave]. *)
Definition handleSubmit (fd : formData) : string + body :=
  match validateTaskTitle (f_title fd) with
  | Some titleError => inl titleError
  | None => inr (taskData fd)
  end.

(** What components/TaskCounter.js computes from the tasks it is given:
    [activeCount], the noun printed after it, and [completedCount]. *)
Definition TaskCounter (tasks : list task) : nat * string * nat :=
  let activeCount := List.length (filter (fun t => completed t =? 0) tasks) in
  let completedCount := List.length (filter (fun t => completed t =? 1) tasks) in
  (activeCount, if Nat.eqb activeCount 1 then "task" else "tasks", completedCount).



(** The character of a decimal digit. *)
Definition digit_char (d : Z) : ascii := ascii_of_N (Z.to_N (48 + d)).

(** The decimal digits of a non-negative integer in front of [acc], most
    significant first; [fuel] bounds the number of digits. *)
Fixpoint show_digits (fuel : nat) (n : Z) (acc : string) : string :=
  match fuel with
  | O => acc
  | S f =>
      if n <? 10 then String (digit_char n) acc
      else show_digits f (n / 10) (String (digit_char (n mod 10)) acc)
  end.

(** The text of an integer in a template literal, as services/taskService.js
    builds the [:id] segment of a path from a task id. *)
Definition show_id (n : Z) : string :=
  if n <? 0 then String "-" (show_digits (S (Z.to_nat (Z.log2 (- n)))) (- n) "")
  else show_digits (S (Z.to_nat (Z.log2 n))) n "".

(** ** Vocabulary of the further properties *)

(** A stored title: not empty, without surrounding white space, at most 200
    code units. *)
Definition title_in_shape (t : task) : Prop :=
  title t <> "" /\ trim (title t) = title t /\
  (String.length (title t) <= 200)%nat.

(** Every id in use has been handed out by the counter. *)
Definition ids_bounded (st : store) : Prop :=
  Forall (fun t => 1 <= id t <= seq st) (rows st).

(** A text column as create stores it: the empty string becomes NULL. *)
Definition stored_on_create (s : string) : option string :=
  if (s =? "")%string then None else Some s.

(** The string is empty or begins with a character that is not white space. *)
Definition starts_clean (s : string) : Prop :=
  match s with
  | EmptyString => True
  | String c _ => is_space c = false
  end.

(** A decimal digit character, and a string of them. *)
Definition is_dec (c : ascii) : bool :=
  match digit_value 10 c with Some _ => true | None => false end.

Fixpoint all_dec (s : string) : bool :=
  match s with
  | EmptyString => true
  | String c r => is_dec c && all_dec r
  end.

(** ** A coercion with exponents, and a table of ten tasks *)

(** The text before the first [e] or [E], and the text after it if there is
    one. *)
Fixpoint split_exponent (s : string) : string * option string :=
  match s with
  | EmptyString => (EmptyString, None)
  | String c r =>
      if (c =? "e")%char || (c =? "E")%char then (EmptyString, Some r)
      else let '(m, e) := split_exponent r in (String c m, e)
  end.

(** A coercion that, like the numeric affinity the engine applies to a text
    compared with the INTEGER key, also reads a decimal exponent: the text
    1e1 is the key 10. *)
Definition exponent_key (txt : string) : option Z :=
  match split_exponent txt with
  | (m, None) => decimal_key m
  | (m, Some e) =>
      match decimal_key m, decimal_key e with
      | Some a, Some b => Some (a * 10 ^ b)
      | _, _ => None
      end
  end.

(** The seeded table after seven more tasks are created: ids 1 to 10. *)
Definition ten_store : store :=
  run exponent_key (init_store sample_clock)
    (repeat ("2026-03-01 09:00:00",
             CreateTask (mkBody (JStr "Buy milk") TAbsent JUndefined TAbsent
                           JUndefined)) 7).

(** * Properties *)

(** ** The string primitives on examples *)

Example trim_ex : trim "  Buy milk  " = "Buy milk".
Proof. reflexivity. Qed.

Example parseInt_ex :
  parseInt "42" = Some 42 /\ parseInt " -7px" = Some (-7) /\
  parseInt "0x1f" = Some 31 /\ parseInt "abc" = None /\ parseInt "0x" = None.
Proof. repeat split. Qed.

(** ** The specification's example scenario *)

(** Create "Buy milk" on an empty table, toggle it twice, delete it twice. *)
Example scenario :
  let b := mkBody (JStr "Buy milk") TAbsent JUndefined TAbsent JUndefined in
  let '(s1, r1) := create_task empty_store "2026-03-01 09:00:00" b in
  let '(s2, r2) := toggle_task decimal_key s1 "2026-03-01 09:01:00" "1" in
  let '(s3, r3) := toggle_task decimal_key s2 "2026-03-01 09:02:00" "1" in
  let '(s4, r4) := delete_task decimal_key s3 "1" in
  let '(s5, r5) := delete_task decimal_key s4 "1" in
  r1 = mkResponse 201
         (PTask (Some (mkTask 1 "Buy milk" None 0 "medium" None
                         "2026-03-01 09:00:00" "2026-03-01 09:00:00"))) /\
  r2 = mkResponse 200
         (PTask (Some (mkTask 1 "Buy milk" None 1 "medium" None
                         "2026-03-01 09:00:00" "2026-03-01 09:01:00"))) /\
  r3 = mkResponse 200
         (PTask (Some (mkTask 1 "Buy milk" None 0 "medium" None
                         "2026-03-01 09:00:00" "2026-03-01 09:02:00"))) /\
  r4 = mkResponse 200 (PDeleted "Task deleted successfully" (Some 1)) /\
  r5 = fail 404 "Task not found" /\
  rows s5 = [].
Proof. vm_compute. repeat split. Qed.

(** ** Strings *)

Lemma trimStart_length (s : string) :
  (String.length (trimStart s) <= String.length s)%nat.
Proof.
  induction s as [|c r IH]; simpl; [lia|].
  destruct (is_space c); simpl; lia.
Qed.

Lemma trimEnd_length (s : string) :
  (String.length (trimEnd s) <= String.length s)%nat.
Proof.
  induction s as [|c r IH]; simpl; [lia|].
  destruct (trimEnd r) as [|c' r'].
  - destruct (is_space c); simpl; lia.
  - simpl in *. lia.
Qed.

Lemma trim_length (s : string) :
  (String.length (trim s) <= String.length s)%nat.
Proof.
  unfold trim.
  pose proof (trimEnd_length (trimStart s)).
  pose proof (trimStart_length s). lia.
Qed.

Lemma trim_nonempty_length (s : string) :
  (0 < String.length (trim s))%nat -> trim s <> "".
Proof. intros H E. rewrite E in H. simpl in H. lia. Qed.

(** ** Title validation *)

Lemma trim_empty : trim "" = "".
Proof. reflexivity. Qed.

Lemma title_error_valid (s : string) :
  valid_title s -> title_error (JStr s) = None.
Proof.
  intros [Hne Hlen]. unfold title_error.
  assert (Hs : s <> "") by (intros ->; apply Hne, trim_empty).
  simpl. apply String.eqb_neq in Hs. rewrite Hs.
  apply String.eqb_neq in Hne. rewrite Hne. simpl.
  destruct (Z.gtb_spec (Z.of_nat (String.length s)) 200); [lia | reflexivity].
Qed.

Lemma title_error_None (v : jsval) :
  title_error v = None -> exists s, v = JStr s /\ valid_title s.
Proof.
  destruct v as [| |b|n|s|]; simpl; try discriminate.
  intros H. exists s. split; [reflexivity|].
  destruct (negb (negb (s =? "")%string) || (trim s =? "")%string) eqn:E;
    [discriminate|].
  apply orb_false_elim in E. destruct E as [_ E].
  destruct (Z.gtb_spec (Z.of_nat (String.length s)) 200); [discriminate|].
  split; [apply String.eqb_neq, E | lia].
Qed.

Lemma title_error_blank (v : jsval) :
  blank_or_missing v -> title_error v = Some "Task title is required".
Proof.
  destruct v as [| |b|n|s|]; simpl; try reflexivity.
  intros E. rewrite E. simpl. rewrite orb_true_r. reflexivity.
Qed.

Lemma title_error_long (s : string) :
  trim s <> "" -> (200 < String.length s)%nat ->
  title_error (JStr s) = Some "Task title must be 200 characters or less".
Proof.
  intros Hne Hlen. unfold title_error.
  assert (Hs : s <> "") by (intros ->; apply Hne, trim_empty).
  simpl. apply String.eqb_neq in Hs. rewrite Hs.
  apply String.eqb_neq in Hne. rewrite Hne. simpl.
  destruct (Z.gtb_spec (Z.of_nat (String.length s)) 200); [reflexivity | lia].
Qed.

(** ** Table lemmas *)

Lemma max_rowid_ge (l : list task) (t : task) :
  In t l -> id t <= max_rowid l.
Proof.
  induction l as [|x l IH]; simpl; [tauto|].
  intros [->|H]; [lia|]. apply IH in H. lia.
Qed.

Lemma find_none_app {A : Type} (f : A -> bool) (l : list A) (x : A) :
  (forall y, In y l -> f y = false) ->
  find f (l ++ [x]) = if f x then Some x else None.
Proof.
  induction l as [|y l IH]; simpl; intros H; [reflexivity|].
  rewrite (H y) by (left; reflexivity). apply IH. intros z Hz. apply H. now right.
Qed.

(** The row [INSERT] adds is the one [lastInsertRowid] finds again. *)
Lemma get_inserted (st : store) (now ttl : string) (descr : option string)
    (prio : string) (due : option string) :
  let k := Z.max (max_rowid (rows st)) (seq st) + 1 in
  let row := mkTask k ttl descr 0 prio due now now in
  insert_task st now ttl descr prio due = (mkStore (rows st ++ [row]) k, k) /\
  get_by_key (mkStore (rows st ++ [row]) k) k = Some row.
Proof.
  intros k row. split; [reflexivity|].
  unfold get_by_key. simpl. rewrite find_none_app.
  - simpl. now rewrite Z.eqb_refl.
  - intros y Hy. apply max_rowid_ge in Hy. apply Z.eqb_neq. subst k. lia.
Qed.

Lemma existsb_valid_nonempty (p : string) :
  existsb (String.eqb p) validPriorities = true -> (p =? "")%string = false.
Proof.
  simpl. intros H. destruct (String.eqb_spec p ""); [subst; discriminate | reflexivity].
Qed.

(** What a create with an accepted title does. *)
Lemma create_task_accepts (st : store) (now : string) (b : body) (s : string) :
  b_title b = JStr s -> valid_title s ->
  let k := Z.max (max_rowid (rows st)) (seq st) + 1 in
  let row :=
    mkTask k (trim s) (or_null (b_description b)) 0
      (create_priority (b_priority b)) (or_null (b_due_date b)) now now in
  create_task st now b =
    (mkStore (rows st ++ [row]) k, mkResponse 201 (PTask (Some row))).
Proof.
  intros Ht Hv k row. unfold create_task. rewrite Ht.
  rewrite (title_error_valid s Hv).
  assert (Hp : (if truthy (b_priority b) && includes validPriorities (b_priority b)
                then b_priority b else JStr "medium")
               = JStr (create_priority (b_priority b))).
  { destruct (b_priority b) as [| |x|n|p|]; simpl; try reflexivity.
    - now rewrite andb_false_r.
    - now rewrite andb_false_r.
    - destruct ((p =? "high")%string || ((p =? "medium")%string || ((p =? "low")%string || false))) eqn:E.
      + pose proof (existsb_valid_nonempty p E) as Hn. rewrite Hn. reflexivity.
      + now rewrite andb_false_r. }
  rewrite Hp.
  destruct (get_inserted st now (trim s) (or_null (b_description b))
              (create_priority (b_priority b)) (or_null (b_due_date b))) as [Hi Hg].
  rewrite Hi. fold k. fold row. fold k in Hg. fold row in Hg. rewrite Hg. reflexivity.
Qed.

Lemma create_task_rejects (st : store) (now : string) (b : body) (msg : string) :
  title_error (b_title b) = Some msg -> create_task st now b = (st, fail 400 msg).
Proof. intros H. unfold create_task. now rewrite H. Qed.

(** ** Lemmas on the routes addressed by [:id] *)

Section ByIdFacts.

Variable key_of_text : string -> option Z.

Lemma id_matches_same_id (txt : string) (t u : task) :
  id t = id u -> id_matches key_of_text txt t = id_matches key_of_text txt u.
Proof. unfold id_matches. intros ->. reflexivity. Qed.

Lemma assign_id (a : assignments) (now : string) (t : task) :
  id (assign a now t) = id t.
Proof. reflexivity. Qed.

(** Reading a row back after [UPDATE ... WHERE id = ?] with the same text. *)
Lemma get_after_update (st : store) (txt : string) (f : task -> task) :
  (forall t, id (f t) = id t) ->
  get_by_id key_of_text (update_where key_of_text st txt f) txt = option_map f (get_by_id key_of_text st txt).
Proof.
  intros Hf. unfold get_by_id, update_where. simpl.
  induction (rows st) as [|x l IH]; simpl; [reflexivity|].
  destruct (id_matches key_of_text txt x) eqn:E.
  - rewrite (id_matches_same_id txt (f x) x (Hf x)), E. reflexivity.
  - rewrite E. exact IH.
Qed.


(** What an update that passes every check does. *)
Lemma update_task_accepts (st : store) (now txt : string) (b : body) (t0 : task) :
  bad_id txt = false -> get_by_id key_of_text st txt = Some t0 ->
  update_title_ok (b_title b) -> update_priority_ok (b_priority b) ->
  update_task key_of_text st now txt b =
    (update_where key_of_text st txt (assign (updates b) now),
     mkResponse 200 (PTask (Some (assign (updates b) now t0)))).
Proof.
  intros Hid Hget Ht Hp. unfold update_task. rewrite Hid, Hget.
  assert (Hte : (if is_undefined (b_title b) then None else title_error (b_title b)) = None).
  { destruct Ht as [-> | [s [-> Hv]]]; [reflexivity|]. simpl. now apply title_error_valid. }
  rewrite Hte.
  assert (Hpe : negb (is_undefined (b_priority b))
                && negb (includes validPriorities (b_priority b)) = false).
  { destruct Hp as [-> | ->]; [reflexivity|]. apply andb_false_r. }
  rewrite Hpe.
  rewrite get_after_update by (intros; apply assign_id). rewrite Hget. simpl.
  destruct Ht as [Et|[s [Et _]]]; rewrite Et;
    destruct Hp as [Ep|Ep]; try (rewrite Ep; reflexivity);
    destruct (b_priority b); simpl in Ep; try discriminate; reflexivity.
Qed.

(** An update stopped by the title checks. *)
Lemma update_task_title_rejects (st : store) (now txt : string) (b : body)
    (t0 : task) (msg : string) :
  bad_id txt = false -> get_by_id key_of_text st txt = Some t0 ->
  b_title b <> JUndefined -> title_error (b_title b) = Some msg ->
  update_task key_of_text st now txt b = (st, fail 400 msg).
Proof.
  intros Hid Hget Hdef He. unfold update_task. rewrite Hid, Hget.
  destruct (b_title b) as [| |x|n|s|]; try contradiction;
    cbn [is_undefined]; rewrite He; reflexivity.
Qed.

End ByIdFacts.

Lemma updated_row_stored (key_of_text : string -> option Z) (st : store)
    (txt : string) (f : task -> task) (t0 : task) :
  get_by_id key_of_text st txt = Some t0 ->
  In (f t0) (rows (update_where key_of_text st txt f)).
Proof.
  intros H. unfold get_by_id in H. apply find_some in H. destruct H as [Hin Hm].
  unfold update_where. simpl. apply in_map_iff. exists t0. now rewrite Hm.
Qed.

(** ** C1: title validation *)

(** C1, as stated, fails.  A title whose trimmed length is at most 200 is
    still rejected when its untrimmed length exceeds 200, because the length
    check reads [title.length], not the length of [title.trim()].  On
    update, the title rules are reached only for an existing task (a blank
    title sent to an unknown id is answered "Task not found"), and a valid
    title is not stored when the priority sent with it is invalid. *)
Lemma title_claim_fails :
  (trim padded_title = "a" /\
   (String.length (trim padded_title) <= 200)%nat /\
   create_task empty_store "2026-03-01 09:00:00"
     (mkBody (JStr padded_title) TAbsent JUndefined TAbsent JUndefined)
   = (empty_store, fail 400 long_title_message)) /\
  update_task decimal_key (init_store sample_clock) "2026-03-01 09:00:00" "999"
    (mkBody (JStr "   ") TAbsent JUndefined TAbsent JUndefined)
  = (init_store sample_clock, fail 404 "Task not found") /\
  update_task decimal_key (init_store sample_clock) "2026-03-01 09:00:00" "1"
    (mkBody (JStr " Buy milk ") TAbsent (JStr "urgent") TAbsent JUndefined)
  = (init_store sample_clock, fail 400 "Invalid priority level").
Proof.
  split; [|split; vm_compute; reflexivity].
  split; [vm_compute; reflexivity|].
  split; [|vm_compute; reflexivity].
  replace (trim padded_title) with "a" by (vm_compute; reflexivity).
  simpl. lia.
Qed.

(** C1 (amended): the length check applies to the title as sent.  On create,
    and on an update of an existing task that supplies a title: a string
    title that is non-blank after trimming and at most 200 characters long
    untrimmed is accepted and the stored title is the trimmed string (on
    update provided the priority field is absent or valid); a title that is
    missing, not a string or blank after trimming fails with "Task title is
    required", whatever its length (the required check comes first); a
    non-blank title longer than 200 characters untrimmed fails with the
    length error, in particular every title whose trimmed length exceeds
    200. *)
Theorem title_validation :
  (forall (st : store) (now : string) (b : body),
     (forall s, b_title b = JStr s -> trim s <> "" ->
        (String.length s <= 200)%nat ->
        exists t,
          create_task st now b
          = (mkStore (rows st ++ [t]) (id t), mkResponse 201 (PTask (Some t)))
          /\ title t = trim s) /\
     (blank_or_missing (b_title b) ->
        create_task st now b = (st, fail 400 "Task title is required")) /\
     (forall s, b_title b = JStr s -> trim s <> "" ->
        (200 < String.length s)%nat ->
        create_task st now b = (st, fail 400 long_title_message)) /\
     (forall s, b_title b = JStr s -> (200 < String.length (trim s))%nat ->
        create_task st now b = (st, fail 400 long_title_message)))
  /\
  (forall (key_of_text : string -> option Z) (st : store) (now txt : string)
          (b : body) (t0 : task),
     bad_id txt = false -> get_by_id key_of_text st txt = Some t0 ->
     b_title b <> JUndefined ->
     (forall s, b_title b = JStr s -> trim s <> "" ->
        (String.length s <= 200)%nat -> update_priority_ok (b_priority b) ->
        exists t,
          snd (update_task key_of_text st now txt b)
          = mkResponse 200 (PTask (Some t))
          /\ In t (rows (fst (update_task key_of_text st now txt b)))
          /\ id t = id t0 /\ title t = trim s) /\
     (blank_or_missing (b_title b) ->
        update_task key_of_text st now txt b
        = (st, fail 400 "Task title is required")) /\
     (forall s, b_title b = JStr s -> trim s <> "" ->
        (200 < String.length s)%nat ->
        update_task key_of_text st now txt b = (st, fail 400 long_title_message)) /\
     (forall s, b_title b = JStr s -> (200 < String.length (trim s))%nat ->
        update_task key_of_text st now txt b = (st, fail 400 long_title_message))).
Proof.
  split.
  - intros st now b. repeat split.
    + intros s Hs Hne Hlen.
      pose proof (create_task_accepts st now b s Hs (conj Hne Hlen)) as H.
      cbv zeta in H. eexists. split; [exact H | reflexivity].
    + intros Hb. apply create_task_rejects, title_error_blank, Hb.
    + intros s Hs Hne Hlen. apply create_task_rejects. rewrite Hs.
      now apply title_error_long.
    + intros s Hs Hlen. apply create_task_rejects. rewrite Hs.
      apply title_error_long.
      * apply trim_nonempty_length. lia.
      * pose proof (trim_length s). lia.
  - intros kot st now txt b t0 Hid Hget Hdef. repeat split.
    + intros s Hs Hne Hlen Hp.
      assert (Ht : update_title_ok (b_title b)).
      { right. exists s. split; [exact Hs | split; assumption]. }
      rewrite (update_task_accepts kot st now txt b t0 Hid Hget Ht Hp). simpl.
      eexists. split; [reflexivity|]. split; [|split].
      * now apply updated_row_stored.
      * reflexivity.
      * simpl. rewrite Hs. reflexivity.
    + intros Hb. apply (update_task_title_rejects kot st now txt b t0); auto.
      now apply title_error_blank.
    + intros s Hs Hne Hlen.
      apply (update_task_title_rejects kot st now txt b t0); auto.
      rewrite Hs. now apply title_error_long.
    + intros s Hs Hlen.
      apply (update_task_title_rejects kot st now txt b t0); auto.
      rewrite Hs. apply title_error_long.
      * apply trim_nonempty_length. lia.
      * pose proof (trim_length s). lia.
Qed.

(** C1 at a concrete request: creating " Buy milk " on the seeded table. *)
Lemma title_validation_witness :
  trim " Buy milk " <> "" /\ (String.length " Buy milk " <= 200)%nat /\
  exists t,
    create_task (init_store sample_clock) "2026-03-01 09:00:00"
      (mkBody (JStr " Buy milk ") TAbsent JUndefined TAbsent JUndefined)
    = (mkStore (rows (init_store sample_clock) ++ [t]) (id t),
       mkResponse 201 (PTask (Some t)))
    /\ title t = trim " Buy milk ".
Proof.
  assert (Hne : trim " Buy milk " <> "") by (vm_compute; discriminate).
  assert (Hlen : (String.length " Buy milk " <= 200)%nat) by (simpl; lia).
  split; [exact Hne|]. split; [exact Hlen|].
  exact (proj1 (proj1 title_validation (init_store sample_clock)
                  "2026-03-01 09:00:00"
                  (mkBody (JStr " Buy milk ") TAbsent JUndefined TAbsent JUndefined))
           " Buy milk " eq_refl Hne Hlen).
Defined.

(** ** C2: priority on create and on update *)





(** ** C3: the filters of the list route *)

Lemma existsb_valid_In (p : string) :
  existsb (String.eqb p) validPriorities = true <-> In p validPriorities.
Proof.
  rewrite existsb_exists. split.
  - intros [x [Hin He]]. apply String.eqb_eq in He. now subst.
  - intros H. exists p. split; [exact H | apply String.eqb_refl].
Qed.

Lemma where_clause_spec (q : query) (t : task) :
  where_clause q t = true <->
  status_selects (q_status q) t /\ priority_selects (q_priority q) t.
Proof.
  unfold where_clause, status_selects, priority_selects.
  rewrite andb_true_iff.
  match goal with |- (?a /\ ?b) <-> (?c /\ ?d) =>
    cut ((a <-> c) /\ (b <-> d)); [tauto | split] end.
  - destruct (q_status q) as [| |x|n|s|]; simpl;
      try (split; [intros _; split; discriminate | reflexivity]).
    destruct (String.eqb_spec s "active") as [->|Ha].
    + rewrite Z.eqb_eq. split.
      * intros H. split; [intros _; exact H | discriminate].
      * intros [H _]. now apply H.
    + destruct (String.eqb_spec s "completed") as [->|Hc].
      * rewrite Z.eqb_eq. split.
        -- intros H. split; [discriminate | intros _; exact H].
        -- intros [_ H]. now apply H.
      * split; [|reflexivity]. intros _.
        split; intros E; injection E as E; contradiction.
  - destruct (q_priority q) as [| |x|n|p|]; simpl;
      try rewrite andb_false_r;
      try (split; [intros _ p0 E; discriminate E | reflexivity]).
    change ((p =? "high")%string || ((p =? "medium")%string
            || ((p =? "low")%string || false)))
      with (existsb (String.eqb p) validPriorities).
    destruct (existsb (String.eqb p) validPriorities) eqn:E.
    + rewrite (existsb_valid_nonempty p E). simpl.
      rewrite String.eqb_eq. split.
      * intros H p0 E0 _. injection E0 as <-. exact H.
      * intros H. apply H; [reflexivity | now apply existsb_valid_In].
    + rewrite andb_false_r. split; [|reflexivity].
      intros _ p0 E0 Hin. injection E0 as <-.
      apply existsb_valid_In in Hin. congruence.
Qed.

Lemma place_perm (leb : task -> task -> bool) (x : task) (l : list task) :
  Permutation (place leb x l) (x :: l).
Proof.
  induction l as [|y r IH]; simpl; [reflexivity|].
  destruct (leb x y); [reflexivity|].
  rewrite IH. apply perm_swap.
Qed.

Lemma order_by_perm (leb : task -> task -> bool) (l : list task) :
  Permutation (order_by leb l) l.
Proof.
  induction l as [|x r IH]; simpl; [reflexivity|].
  rewrite place_perm. now apply perm_skip.
Qed.

(** C3: the list route answers 200 with exactly the stored rows that pass
    both selected filters (as a multiset, whatever the sort key): status
    "active" keeps completed = 0, "completed" keeps completed = 1, a priority
    equal to one of the three levels keeps that priority, and anything else
    filters nothing.  Hence status=active never yields completed = 1 and
    priority=high never yields another priority. *)
Theorem list_filters (st : store) (q : query) :
  list_tasks st q = mkResponse 200 (PTasks (select_tasks st q)) /\
  Permutation (select_tasks st q) (filter (where_clause q) (rows st)) /\
  (forall t, In t (select_tasks st q) <->
             In t (rows st) /\ status_selects (q_status q) t
             /\ priority_selects (q_priority q) t) /\
  (q_status q = JStr "active" ->
     forall t, In t (select_tasks st q) -> completed t <> 1) /\
  (q_priority q = JStr "high" ->
     forall t, In t (select_tasks st q) -> priority t = "high").
Proof.
  assert (Hperm : Permutation (select_tasks st q) (filter (where_clause q) (rows st)))
    by apply order_by_perm.
  assert (Hin : forall t, In t (select_tasks st q) <->
             In t (rows st) /\ status_selects (q_status q) t
             /\ priority_selects (q_priority q) t).
  { intros t. rewrite <- where_clause_spec, <- filter_In. split.
    - apply Permutation_in. exact Hperm.
    - apply Permutation_in. symmetry. exact Hperm. }
  split; [reflexivity|]. split; [exact Hperm|]. split; [exact Hin|]. split.
  - intros Hs t Ht. apply Hin in Ht. destruct Ht as [_ [[Ha _] _]].
    rewrite (Ha Hs). discriminate.
  - intros Hp t Ht. apply Hin in Ht. destruct Ht as [_ [_ Hsel]].
    apply (Hsel "high" Hp). simpl. tauto.
Qed.

(** C3 on the seeded table: priority=high, sorted by title. *)
Lemma list_filters_witness :
  forallb (fun t => (priority t =? "high")%string)
    (select_tasks (init_store sample_clock)
       (mkQuery JUndefined (JStr "high") (JStr "title"))) = true /\
  priority (mkTask 1 "Complete project documentation"
              (Some "Write comprehensive docs for the TODO app") 0 "high"
              (Some "2026-02-15") "2026-02-01 08:00:00" "2026-02-01 08:00:00")
  = "high".
Proof.
  split; [reflexivity|].
  apply (proj2 (proj2 (proj2 (proj2
           (list_filters (init_store sample_clock)
              (mkQuery JUndefined (JStr "high") (JStr "title")))))) eq_refl).
  vm_compute. left. reflexivity.
Defined.

(** ** C4: sort=priority *)

Section Ordering.

Variable leb : task -> task -> bool.
Hypothesis leb_total : forall a b, leb a b = false -> leb b a = true.
Hypothesis leb_trans : forall a b c, leb a b = true -> leb b c = true -> leb a c = true.

Let precedes (a b : task) : Prop := leb a b = true.

Lemma place_sorted (x : task) (l : list task) :
  StronglySorted precedes l -> StronglySorted precedes (place leb x l).
Proof.
  induction 1 as [|y r Hr IH Hy]; simpl.
  - constructor; constructor.
  - destruct (leb x y) eqn:E.
    + constructor; [constructor; assumption|].
      constructor; [exact E|].
      eapply Forall_impl; [|exact Hy]. intros z Hz. eapply leb_trans; eassumption.
    + constructor; [exact IH|].
      eapply Permutation_Forall; [symmetry; apply place_perm|].
      constructor; [now apply leb_total | exact Hy].
Qed.

Lemma order_by_sorted (l : list task) :
  StronglySorted precedes (order_by leb l).
Proof.
  induction l as [|x r IH]; simpl; [constructor | now apply place_sorted].
Qed.

(** In a sorted list, an earlier row may precede every later one. *)
Lemma sorted_positions (l : list task) :
  StronglySorted precedes l ->
  forall (i j : nat) (a b : task),
    nth_error l i = Some a -> nth_error l j = Some b -> (i < j)%nat ->
    leb a b = true.
Proof.
  induction 1 as [|y r Hr IH Hy]; intros i j a b Hi Hj Hlt.
  - destruct i; discriminate.
  - destruct j as [|j]; [lia|]. simpl in Hj. destruct i as [|i].
    + simpl in Hi. injection Hi as <-.
      rewrite Forall_forall in Hy. apply Hy. eapply nth_error_In, Hj.
    + simpl in Hi. apply (IH i j); auto. lia.
Qed.

End Ordering.

Lemma by_rank_total (a b : task) : by_rank a b = false -> by_rank b a = true.
Proof.
  unfold by_rank, rank_leb.
  destruct (priority_rank (priority a)), (priority_rank (priority b));
    try discriminate; try reflexivity.
  rewrite Z.leb_gt, Z.leb_le. lia.
Qed.

Lemma by_rank_trans (a b c : task) :
  by_rank a b = true -> by_rank b c = true -> by_rank a c = true.
Proof.
  unfold by_rank, rank_leb.
  destruct (priority_rank (priority a)), (priority_rank (priority b)),
    (priority_rank (priority c)); try discriminate; try reflexivity.
  rewrite !Z.leb_le. lia.
Qed.

Lemma order_clause_priority (q : query) :
  q_sort q = JStr "priority" -> order_clause q = by_rank.
Proof. intros H. unfold order_clause. rewrite H. reflexivity. Qed.

(** C4: in the answer to a list request with sort=priority, every row of
    priority "high" stands at an earlier position than every row of priority
    "medium", and every "medium" row earlier than every "low" row (hence
    every "high" row earlier than every "low" row), whatever the stored rows
    and the filters. *)
Theorem priority_sort_order (st : store) (q : query) :
  q_sort q = JStr "priority" ->
  list_tasks st q = mkResponse 200 (PTasks (select_tasks st q)) /\
  forall (i j : nat) (a b : task),
    nth_error (select_tasks st q) i = Some a ->
    nth_error (select_tasks st q) j = Some b ->
    ranked_before (priority a) (priority b) ->
    (i < j)%nat.
Proof.
  intros Hsort. split; [reflexivity|].
  intros i j a b Hi Hj Hrank.
  assert (Hsorted : forall i' j' a' b',
             nth_error (select_tasks st q) i' = Some a' ->
             nth_error (select_tasks st q) j' = Some b' ->
             (i' < j')%nat -> by_rank a' b' = true).
  { unfold select_tasks. rewrite (order_clause_priority q Hsort).
    apply (sorted_positions by_rank), order_by_sorted.
    - exact by_rank_total.
    - exact by_rank_trans. }
  assert (Hba : by_rank b a = false).
  { unfold by_rank.
    destruct Hrank as [[-> ->]|[[-> ->]|[-> ->]]]; reflexivity. }
  destruct (Nat.lt_trichotomy i j) as [Hlt|[Heq|Hgt]]; [exact Hlt| |].
  - subst j. rewrite Hi in Hj. injection Hj as <-.
    destruct Hrank as [[E1 E2]|[[E1 E2]|[E1 E2]]]; rewrite E1 in E2; discriminate.
  - rewrite (Hsorted j i b a Hj Hi Hgt) in Hba. discriminate.
Qed.

(** C4 on [release_store]: the task created last is listed before the seeded
    medium task. *)
Lemma priority_sort_order_witness :
  map id (select_tasks release_store
            (mkQuery JUndefined JUndefined (JStr "priority"))) = [1; 4; 2; 3]
  /\ (1 < 2)%nat.
Proof.
  split; [vm_compute; reflexivity|].
  refine (proj2 (priority_sort_order release_store
            (mkQuery JUndefined JUndefined (JStr "priority")) eq_refl)
          1%nat 2%nat
          (mkTask 4 "Ship release" None 0 "high" None
             "2026-03-01 09:00:00" "2026-03-01 09:00:00")
          (mkTask 2 "Review pull requests" (Some "Review and merge pending PRs")
             0 "medium" (Some "2026-02-14")
             "2026-02-01 08:00:00" "2026-02-01 08:00:00")
          _ _ _).
  - vm_compute. reflexivity.
  - vm_compute. reflexivity.
  - left. split; reflexivity.
Defined.

(** ** Store invariants *)

Lemma max_rowid_fresh (l : list task) (s : Z) :
  ~ In (Z.max (max_rowid l) s + 1) (map id l).
Proof.
  intros H. apply in_map_iff in H. destruct H as [t [E Hin]].
  apply max_rowid_ge in Hin. lia.
Qed.

Lemma insert_task_ok (st : store) (now ttl : string) (descr : option string)
    (prio : string) (due : option string) :
  store_ok st -> In prio validPriorities ->
  store_ok (fst (insert_task st now ttl descr prio due)).
Proof.
  intros [Hnd Hall] Hp. unfold insert_task, store_ok. simpl. split.
  - rewrite map_app. simpl.
    apply Permutation_NoDup with (l := (Z.max (max_rowid (rows st)) (seq st) + 1)
                                        :: map id (rows st)).
    + apply Permutation_cons_append.
    + constructor; [apply max_rowid_fresh | exact Hnd].
  - apply Forall_app. split; [exact Hall|].
    constructor; [|constructor]. split; [now left | exact Hp].
Qed.

Lemma seed_ok (l : list (string * option string * string * option string))
    (st : store) (clock : nat -> string) (n : nat) :
  store_ok st -> Forall (fun e => In (snd (fst e)) validPriorities) l ->
  store_ok (seed st clock n l).
Proof.
  revert st n. induction l as [|[[[ttl descr] prio] due] r IH]; intros st n Hst Hl.
  - exact Hst.
  - simpl. inversion Hl as [|e r' He Hr]; subst. apply IH; [|exact Hr].
    now apply insert_task_ok.
Qed.

Lemma init_store_ok (clock : nat -> string) : store_ok (init_store clock).
Proof.
  apply seed_ok.
  - split; constructor.
  - repeat constructor; simpl; tauto.
Qed.

Lemma create_priority_valid (v : jsval) : In (create_priority v) validPriorities.
Proof.
  destruct v as [| |x|n|p|]; simpl; try tauto.
  change ((p =? "high")%string || ((p =? "medium")%string
          || ((p =? "low")%string || false)))
    with (existsb (String.eqb p) validPriorities).
  destruct (existsb (String.eqb p) validPriorities) eqn:E.
  - now apply existsb_valid_In.
  - simpl. tauto.
Qed.

Lemma create_task_cases (st : store) (now : string) (b : body) :
  (exists msg, create_task st now b = (st, fail 400 msg)) \/
  (exists s, b_title b = JStr s /\ valid_title s /\
     create_task st now b
     = (fst (insert_task st now (trim s) (or_null (b_description b))
               (create_priority (b_priority b)) (or_null (b_due_date b))),
        mkResponse 201
          (PTask (Some (mkTask (Z.max (max_rowid (rows st)) (seq st) + 1)
                          (trim s) (or_null (b_description b)) 0
                          (create_priority (b_priority b))
                          (or_null (b_due_date b)) now now))))).
Proof.
  destruct (title_error (b_title b)) as [msg|] eqn:E.
  - left. exists msg. now apply create_task_rejects.
  - right. apply title_error_None in E. destruct E as [s [Hs Hv]].
    exists s. split; [exact Hs|]. split; [exact Hv|].
    apply (create_task_accepts st now b s Hs Hv).
Qed.

Section Invariants.

Variable key_of_text : string -> option Z.

Lemma update_where_ids (st : store) (txt : string) (f : task -> task) :
  (forall t, id (f t) = id t) ->
  map id (rows (update_where key_of_text st txt f)) = map id (rows st).
Proof.
  intros Hf. unfold update_where. simpl. rewrite map_map.
  apply map_ext. intros t. destruct (id_matches key_of_text txt t); [apply Hf | reflexivity].
Qed.

Lemma update_where_ok (st : store) (txt : string) (f : task -> task) :
  (forall t, id (f t) = id t) -> (forall t, row_ok t -> row_ok (f t)) ->
  store_ok st -> store_ok (update_where key_of_text st txt f).
Proof.
  intros Hid Hf [Hnd Hall]. split.
  - now rewrite update_where_ids.
  - unfold update_where. simpl. apply Forall_map.
    eapply Forall_impl; [|exact Hall]. intros t Ht. simpl.
    destruct (id_matches key_of_text txt t); [now apply Hf | exact Ht].
Qed.

(** The outcomes of an update: an error that leaves the store alone, or the
    merge of a body that passed both validations. *)
Lemma update_task_cases (st : store) (now txt : string) (b : body) :
  (exists code msg, update_task key_of_text st now txt b = (st, fail code msg) /\ code <> 200) \/
  (exists t0, bad_id txt = false /\ get_by_id key_of_text st txt = Some t0 /\
     update_title_ok (b_title b) /\ update_priority_ok (b_priority b) /\
     update_task key_of_text st now txt b
     = (update_where key_of_text st txt (assign (updates b) now),
        mkResponse 200 (PTask (Some (assign (updates b) now t0))))).
Proof.
  destruct (bad_id txt) eqn:Hid.
  { left. exists 400, "Valid task ID is required".
    unfold update_task. rewrite Hid. split; [reflexivity | lia]. }
  destruct (get_by_id key_of_text st txt) as [t0|] eqn:Hget.
  2:{ left. exists 404, "Task not found".
      unfold update_task. rewrite Hid, Hget. split; [reflexivity | lia]. }
  destruct (if is_undefined (b_title b) then None else title_error (b_title b))
    as [msg|] eqn:Ht.
  { left. exists 400, msg.
    unfold update_task. rewrite Hid, Hget, Ht. split; [reflexivity | lia]. }
  destruct (negb (is_undefined (b_priority b))
            && negb (includes validPriorities (b_priority b))) eqn:Hp.
  { left. exists 400, "Invalid priority level".
    unfold update_task. rewrite Hid, Hget, Ht, Hp. split; [reflexivity | lia]. }
  right. exists t0.
  assert (Htok : update_title_ok (b_title b)).
  { destruct (b_title b) as [| |x|n|s|] eqn:E; cbn [is_undefined] in Ht;
      try discriminate; [now left|].
    right. apply title_error_None in Ht. destruct Ht as [s' [Es Hv]].
    injection Es as <-. exists s. split; [reflexivity | exact Hv]. }
  assert (Hpok : update_priority_ok (b_priority b)).
  { destruct (b_priority b) as [| |x|n|p|] eqn:E; simpl in Hp;
      try discriminate; [now left|].
    right. simpl. now apply negb_false_iff in Hp. }
  split; [reflexivity|]. split; [reflexivity|].
  split; [exact Htok|]. split; [exact Hpok|].
  now apply update_task_accepts.
Qed.

Lemma updates_row_ok (b : body) (now : string) (t : task) :
  update_priority_ok (b_priority b) -> row_ok t ->
  row_ok (assign (updates b) now t).
Proof.
  intros Hp [Hc Hpr]. split; simpl.
  - destruct (is_undefined (b_completed b)); simpl; [exact Hc|].
    destruct (truthy (b_completed b)); tauto.
  - destruct Hp as [E|E].
    + rewrite E. exact Hpr.
    + destruct (b_priority b) as [| |x|n|p|]; simpl in E; try discriminate.
      now apply existsb_valid_In.
Qed.

Lemma toggle_task_cases (st : store) (now txt : string) :
  (exists code msg, toggle_task key_of_text st now txt = (st, fail code msg) /\ code <> 200) \/
  (exists t0, bad_id txt = false /\ get_by_id key_of_text st txt = Some t0 /\
     let a := mkSet None None None None
                (Some (if completed t0 =? 1 then 0 else 1)) in
     toggle_task key_of_text st now txt
     = (update_where key_of_text st txt (assign a now),
        mkResponse 200 (PTask (Some (assign a now t0))))).
Proof.
  unfold toggle_task.
  destruct (bad_id txt) eqn:Hid.
  { left. exists 400, "Valid task ID is required". split; [reflexivity | lia]. }
  destruct (get_by_id key_of_text st txt) as [t0|] eqn:Hget.
  2:{ left. exists 404, "Task not found". split; [reflexivity | lia]. }
  right. exists t0. split; [reflexivity|]. split; [reflexivity|]. cbv zeta.
  rewrite get_after_update by (intros; apply assign_id). now rewrite Hget.
Qed.

Lemma filter_ids_NoDup (f : task -> bool) (l : list task) :
  NoDup (map id l) -> NoDup (map id (filter f l)).
Proof.
  induction l as [|x l IH]; simpl; intros H; [constructor|].
  inversion H as [|k ks Hnin Hnd]; subst.
  destruct (f x); [|now apply IH]. simpl. constructor; [|now apply IH].
  intros Hin. apply Hnin. apply in_map_iff in Hin. destruct Hin as [t [E Ht]].
  apply filter_In in Ht. apply in_map_iff. exists t. tauto.
Qed.

Lemma delete_task_rows (st : store) (txt : string) :
  fst (delete_task key_of_text st txt) = st \/
  fst (delete_task key_of_text st txt)
  = mkStore (filter (fun t => negb (id_matches key_of_text txt t)) (rows st)) (seq st).
Proof.
  unfold delete_task.
  destruct (bad_id txt); [now left|].
  destruct (get_by_id key_of_text st txt); [|now left].
  unfold delete_where.
  destruct (Z.of_nat (List.length (filter (id_matches key_of_text txt) (rows st))) >? 0);
    now right.
Qed.

(** Every request keeps the table within its invariants. *)
Lemma handle_ok (st : store) (now : string) (r : request) :
  store_ok st -> store_ok (fst (handle key_of_text st now r)).
Proof.
  intros Hst. destruct r as [q|b|txt b|txt|txt]; simpl.
  - exact Hst.
  - destruct (create_task_cases st now b) as [[msg E]|[s [_ [_ E]]]]; rewrite E.
    + exact Hst.
    + simpl. apply insert_task_ok; [exact Hst | apply create_priority_valid].
  - destruct (update_task_cases st now txt b)
      as [[code [msg [E _]]]|[t0 [_ [_ [_ [Hp E]]]]]]; rewrite E.
    + exact Hst.
    + simpl. apply update_where_ok; auto.
      intros t. now apply updates_row_ok.
  - destruct (toggle_task_cases st now txt)
      as [[code [msg [E _]]]|[t0 [_ [_ E]]]]; cbv zeta in *; rewrite E.
    + exact Hst.
    + simpl. apply update_where_ok; auto.
      intros t [Hc Hp]. split; [|exact Hp]. simpl.
      destruct (completed t0 =? 1); tauto.
  - destruct (delete_task_rows st txt) as [E|E]; rewrite E; [exact Hst|].
    destruct Hst as [Hnd Hall]. split; simpl.
    + now apply filter_ids_NoDup.
    + apply Forall_forall. intros t Ht. apply filter_In in Ht.
      rewrite Forall_forall in Hall. now apply Hall.
Qed.

Lemma reachable_ok (st : store) : reachable key_of_text st -> store_ok st.
Proof.
  induction 1 as [clock|st now r _ IH].
  - apply init_store_ok.
  - now apply handle_ok.
Qed.

(** With unique ids, the row a text addresses is the one with that id. *)
Lemma get_by_id_unique (st : store) (txt : string) (t : task) :
  NoDup (map id (rows st)) -> In t (rows st) -> key_of_text txt = Some (id t) ->
  get_by_id key_of_text st txt = Some t.
Proof.
  intros Hnd Hin Hk. unfold get_by_id.
  induction (rows st) as [|x l IH]; [contradiction|].
  simpl in *. inversion Hnd as [|k ks Hnin Hnd']; subst.
  unfold id_matches at 1. rewrite Hk.
  destruct Hin as [->|Hin].
  - now rewrite Z.eqb_refl.
  - destruct (Z.eqb_spec (id x) (id t)) as [E|_].
    + exfalso. apply Hnin. rewrite E. now apply in_map.
    + now apply IH.
Qed.

End Invariants.

(** ** Addressing a stored task *)

Lemma parseInt_some_good_id (txt : string) (k : Z) :
  parseInt txt = Some k -> bad_id txt = false.
Proof.
  intros H. unfold bad_id, isNaN_parseInt. rewrite H.
  destruct txt; [discriminate H | reflexivity].
Qed.


(** ** C5: what an update changes *)


Section Frame.

Variable key_of_text : string -> option Z.



End Frame.



(** ** C6: toggling completion *)

(** C6: for a task stored in a reachable table and addressed by its id, one
    toggle answers 200 with the row whose completed value is flipped (0 to
    1, 1 to 0, nothing else being expressible: the request carries no
    value), with updated_at refreshed and every other column as before; a
    second toggle brings completed back to its original value. *)
Theorem toggle_twice (key_of_text : string -> option Z) (st : store)
    (now1 now2 txt : string) (t0 : task) :
  reachable key_of_text st -> In t0 (rows st) ->
  addresses key_of_text txt (id t0) ->
  exists t1 t2,
    snd (toggle_task key_of_text st now1 txt) = mkResponse 200 (PTask (Some t1)) /\
    get_by_id key_of_text (fst (toggle_task key_of_text st now1 txt)) txt = Some t1 /\
    completed t1 = 1 - completed t0 /\
    (completed t1 = 0 \/ completed t1 = 1) /\
    updated_at t1 = now1 /\
    t1 = mkTask (id t0) (title t0) (description t0) (completed t1) (priority t0)
           (due_date t0) (created_at t0) now1 /\
    snd (toggle_task key_of_text (fst (toggle_task key_of_text st now1 txt)) now2 txt)
    = mkResponse 200 (PTask (Some t2)) /\
    completed t2 = completed t0 /\
    updated_at t2 = now2.
Proof.
  intros Hreach Hin [Hparse Hkey].
  pose proof (reachable_ok key_of_text st Hreach) as [Hnd Hall].
  pose proof (get_by_id_unique key_of_text st txt t0 Hnd Hin Hkey) as Hget.
  pose proof (parseInt_some_good_id txt (id t0) Hparse) as Hid.
  assert (Hc : completed t0 = 0 \/ completed t0 = 1).
  { rewrite Forall_forall in Hall. now apply Hall. }
  set (a1 := mkSet None None None None (Some (if completed t0 =? 1 then 0 else 1))).
  assert (E1 : toggle_task key_of_text st now1 txt
               = (update_where key_of_text st txt (assign a1 now1),
                  mkResponse 200 (PTask (Some (assign a1 now1 t0))))).
  { unfold toggle_task. rewrite Hid, Hget. cbv zeta. fold a1.
    rewrite get_after_update by (intros; apply assign_id). now rewrite Hget. }
  assert (Hget1 : get_by_id key_of_text
                    (update_where key_of_text st txt (assign a1 now1)) txt
                  = Some (assign a1 now1 t0)).
  { rewrite get_after_update by (intros; apply assign_id). now rewrite Hget. }
  set (t1 := assign a1 now1 t0) in *.
  set (a2 := mkSet None None None None (Some (if completed t1 =? 1 then 0 else 1))).
  exists t1, (assign a2 now2 t1).
  rewrite E1. simpl fst. simpl snd.
  split; [reflexivity|]. split; [exact Hget1|].
  assert (Hc1 : completed t1 = 1 - completed t0).
  { subst t1 a1. simpl. destruct Hc as [-> | ->]; reflexivity. }
  split; [exact Hc1|]. split; [lia|]. split; [reflexivity|].
  split; [reflexivity|]. split.
  - unfold toggle_task. rewrite Hid, Hget1. cbv zeta. fold a2.
    rewrite get_after_update by (intros; apply assign_id). now rewrite Hget1.
  - split; [|reflexivity].
    change (completed (assign a2 now2 t1))
      with (if completed t1 =? 1 then 0 else 1).
    rewrite Hc1. destruct Hc as [-> | ->]; reflexivity.
Qed.

(** C6 on the seeded table: toggling task 3 twice. *)
Lemma toggle_twice_witness :
  map completed
    (rows (fst (toggle_task decimal_key (init_store sample_clock)
                  "2026-03-01 09:00:00" "3"))) = [0; 0; 1] /\
  exists t1 t2,
    snd (toggle_task decimal_key (init_store sample_clock)
           "2026-03-01 09:00:00" "3") = mkResponse 200 (PTask (Some t1)) /\
    completed t1 = 1 /\
    snd (toggle_task decimal_key
           (fst (toggle_task decimal_key (init_store sample_clock)
                   "2026-03-01 09:00:00" "3"))
           "2026-03-01 09:05:00" "3") = mkResponse 200 (PTask (Some t2)) /\
    completed t2 = 0.
Proof.
  split; [vm_compute; reflexivity|].
  destruct (toggle_twice decimal_key (init_store sample_clock)
              "2026-03-01 09:00:00" "2026-03-01 09:05:00" "3"
              (mkTask 3 "Update dependencies" (Some "Check and update npm packages")
                 0 "low" None "2026-02-01 08:00:00" "2026-02-01 08:00:00")
              (reach_init decimal_key sample_clock)
              (or_intror (or_intror (or_introl eq_refl)))
              (conj eq_refl eq_refl))
    as [t1 [t2 [H1 [_ [H2 [_ [_ [_ [H3 [H4 _]]]]]]]]]].
  exists t1, t2. split; [exact H1|]. split; [exact H2|].
  split; [exact H3 | exact H4].
Defined.

(** ** C7: updating an id that matches no row *)

(** C7, as stated, fails: an id that does not parse as a number matches no
    stored row, yet the answer is 400 "Valid task ID is required", not 404. *)
Lemma update_unparsable_id :
  get_by_id decimal_key (init_store sample_clock) "abc" = None /\
  update_task decimal_key (init_store sample_clock) "2026-03-01 09:00:00" "abc"
    (mkBody (JStr "Buy milk") TAbsent JUndefined TAbsent JUndefined)
  = (init_store sample_clock, fail 400 "Valid task ID is required") /\
  fail 400 "Valid task ID is required" <> fail 404 "Task not found".
Proof.
  split; [vm_compute; reflexivity|].
  split; [vm_compute; reflexivity | discriminate].
Qed.

(** C7 (amended): an update whose id parses as a number and matches no
    stored row is answered 404 "Task not found" whatever the payload (the
    lookup precedes every payload check), and the store is unchanged. *)
Theorem update_not_found (key_of_text : string -> option Z) (st : store)
    (now txt : string) (b : body) :
  bad_id txt = false -> get_by_id key_of_text st txt = None ->
  update_task key_of_text st now txt b = (st, fail 404 "Task not found").
Proof.
  intros Hid Hget. unfold update_task. rewrite Hid, Hget. reflexivity.
Qed.

(** C7 at a payload invalid in both title and priority. *)
Lemma update_not_found_witness :
  update_task decimal_key (init_store sample_clock) "2026-03-01 09:00:00" "999"
    (mkBody (JStr "   ") TAbsent (JStr "urgent") TAbsent JUndefined)
  = (init_store sample_clock, fail 404 "Task not found").
Proof.
  apply (update_not_found decimal_key (init_store sample_clock)
           "2026-03-01 09:00:00" "999"
           (mkBody (JStr "   ") TAbsent (JStr "urgent") TAbsent JUndefined)).
  - reflexivity.
  - reflexivity.
Defined.

(** ** C8: delete, then delete again *)

Lemma get_by_id_exists (key_of_text : string -> option Z) (st : store)
    (txt : string) (t0 : task) :
  In t0 (rows st) -> key_of_text txt = Some (id t0) ->
  exists t, get_by_id key_of_text st txt = Some t.
Proof.
  intros Hin Hk. unfold get_by_id.
  destruct (find (id_matches key_of_text txt) (rows st)) as [t|] eqn:E.
  - now exists t.
  - exfalso. apply (find_none _ _ E) in Hin. unfold id_matches in Hin.
    rewrite Hk, Z.eqb_refl in Hin. discriminate.
Qed.

(** C8 (defect in the code): the id in the delete confirmation is what
    [parseInt] reads in the path text, not the id of the row the engine
    deleted.  For a path text that [parseInt] reads as [p] (within the
    integers a JavaScript number holds exactly) and that the engine compares
    equal to the id of a stored task, the delete answers 200 with the
    confirmation message and the id [p], leaves the store without any row of
    the task's id and with every other row, and the same delete sent again
    answers 404 "Task not found".  The two readings agree on the decimal
    text of an id, where the payload is the deleted task's id; they differ
    on a text such as 1e1, which deletes task 10 and answers id 1. *)
Theorem delete_answers_parsed_text (key_of_text : string -> option Z)
    (st : store) (txt : string) (t0 : task) (p : Z) :
  parseInt txt = Some p -> Z.abs p < 2 ^ 53 ->
  key_of_text txt = Some (id t0) -> In t0 (rows st) ->
  snd (delete_task key_of_text st txt)
  = mkResponse 200 (PDeleted "Task deleted successfully" (Some p)) /\
  (forall t, In t (rows (fst (delete_task key_of_text st txt))) <->
             In t (rows st) /\ id t <> id t0) /\
  delete_task key_of_text (fst (delete_task key_of_text st txt)) txt
  = (fst (delete_task key_of_text st txt), fail 404 "Task not found").
Proof.
  intros Hparse _ Hkey Hin.
  pose proof (parseInt_some_good_id txt p Hparse) as Hid.
  destruct (get_by_id_exists key_of_text st txt t0 Hin Hkey) as [t Hget].
  assert (Hm : forall u, id_matches key_of_text txt u = (id u =? id t0)).
  { intros u. unfold id_matches. now rewrite Hkey. }
  assert (Hchanges :
    (Z.of_nat (List.length (filter (id_matches key_of_text txt) (rows st))) >? 0)
    = true).
  { assert (Hf : In t0 (filter (id_matches key_of_text txt) (rows st))).
    { apply filter_In. split; [exact Hin|]. rewrite Hm. apply Z.eqb_refl. }
    destruct (filter (id_matches key_of_text txt) (rows st)); [contradiction|].
    simpl List.length. apply Z.gtb_lt. lia. }
  assert (E : delete_task key_of_text st txt
              = (mkStore (filter (fun u => negb (id_matches key_of_text txt u))
                            (rows st)) (seq st),
                 mkResponse 200 (PDeleted "Task deleted successfully" (Some p)))).
  { unfold delete_task. rewrite Hid, Hget. unfold delete_where.
    rewrite Hchanges, Hparse. reflexivity. }
  rewrite E. simpl fst. simpl snd.
  split; [reflexivity|]. split.
  - intros u. simpl. rewrite filter_In, Hm, negb_true_iff, Z.eqb_neq. tauto.
  - unfold delete_task. rewrite Hid.
    assert (Hnone : get_by_id key_of_text
                      (mkStore (filter (fun u => negb (id_matches key_of_text txt u))
                                  (rows st)) (seq st)) txt = None).
    { unfold get_by_id. simpl.
      destruct (find (id_matches key_of_text txt)
                  (filter (fun u => negb (id_matches key_of_text txt u)) (rows st)))
        as [u|] eqn:Ef; [|reflexivity].
      apply find_some in Ef. destruct Ef as [Hu Hmu].
      apply filter_In in Hu. destruct Hu as [_ Hn].
      rewrite Hmu in Hn. discriminate. }
    rewrite Hnone. reflexivity.
Qed.

(** C8 at the failing request: DELETE /api/tasks/1e1 on [ten_store] removes
    task 10 and confirms the deletion of id 1. *)
Lemma delete_answers_parsed_text_witness :
  parseInt "1e1" = Some 1 /\ exponent_key "1e1" = Some 10 /\
  map id (rows ten_store) = [1; 2; 3; 4; 5; 6; 7; 8; 9; 10] /\
  snd (delete_task exponent_key ten_store "1e1")
  = mkResponse 200 (PDeleted "Task deleted successfully" (Some 1)) /\
  map id (rows (fst (delete_task exponent_key ten_store "1e1")))
  = [1; 2; 3; 4; 5; 6; 7; 8; 9].
Proof.
  split; [reflexivity|]. split; [vm_compute; reflexivity|].
  split; [vm_compute; reflexivity|].
  split; [|vm_compute; reflexivity].
  refine (proj1 (delete_answers_parsed_text exponent_key ten_store "1e1"
                   (mkTask 10 "Buy milk" None 0 "medium" None
                      "2026-03-01 09:00:00" "2026-03-01 09:00:00")
                   1 eq_refl _ _ _)).
  - vm_compute. reflexivity.
  - vm_compute. reflexivity.
  - vm_compute. do 9 right. left. reflexivity.
Defined.

(** ** C9: the shape of every stored row *)



(** ** C10: an id that does not parse *)

(** C10: an update or a toggle whose id segment does not parse as a number
    is answered 400 "Valid task ID is required"; the answer is the same for
    every store and the store is returned as it was. *)
Theorem unparsable_id_rejected (key_of_text : string -> option Z) (st : store)
    (now txt : string) (b : body) :
  parseInt txt = None ->
  update_task key_of_text st now txt b = (st, fail 400 "Valid task ID is required") /\
  toggle_task key_of_text st now txt = (st, fail 400 "Valid task ID is required").
Proof.
  intros H.
  assert (Hid : bad_id txt = true).
  { unfold bad_id, isNaN_parseInt. rewrite H. apply orb_true_r. }
  unfold update_task, toggle_task. rewrite Hid. split; reflexivity.
Qed.

(** C10 at the id "abc". *)
Lemma unparsable_id_rejected_witness :
  parseInt "abc" = None /\
  update_task decimal_key (init_store sample_clock) "2026-03-01 09:00:00" "abc"
    (mkBody (JStr "Buy milk") TAbsent JUndefined TAbsent JUndefined)
  = (init_store sample_clock, fail 400 "Valid task ID is required") /\
  toggle_task decimal_key (init_store sample_clock) "2026-03-01 09:00:00" "abc"
  = (init_store sample_clock, fail 400 "Valid task ID is required").
Proof.
  split; [reflexivity|].
  apply (unparsable_id_rejected decimal_key (init_store sample_clock)
           "2026-03-01 09:00:00" "abc"
           (mkBody (JStr "Buy milk") TAbsent JUndefined TAbsent JUndefined)).
  reflexivity.
Defined.

(** * Further properties of the handlers and of the client *)

(** ** Answers and the store *)

Lemma filter_none_removed {A : Type} (f : A -> bool) (l : list A) :
  List.length (filter f l) = 0%nat -> filter (fun x => negb (f x)) l = l.
Proof.
  induction l as [|x l IH]; simpl; [reflexivity|].
  destruct (f x); simpl; [discriminate|]. intros H. f_equal. now apply IH.
Qed.

Lemma store_eta (st : store) : mkStore (rows st) (seq st) = st.
Proof. now destruct st. Qed.

(** The answers of the delete route. *)
Lemma delete_task_cases (key_of_text : string -> option Z) (st : store)
    (txt : string) :
  delete_task key_of_text st txt = (st, fail 400 "Valid task ID is required") \/
  delete_task key_of_text st txt = (st, fail 404 "Task not found") \/
  (exists t0, get_by_id key_of_text st txt = Some t0 /\
     delete_task key_of_text st txt
     = (mkStore (filter (fun t => negb (id_matches key_of_text txt t)) (rows st))
          (seq st),
        mkResponse 200 (PDeleted "Task deleted successfully" (parseInt txt)))).
Proof.
  unfold delete_task.
  destruct (bad_id txt); [now left|].
  destruct (get_by_id key_of_text st txt) as [t0|] eqn:Hget; [|right; now left].
  unfold delete_where.
  destruct (Z.of_nat (List.length (filter (id_matches key_of_text txt) (rows st))) >? 0)
    eqn:Hc.
  - right. right. exists t0. split; reflexivity.
  - exfalso. unfold get_by_id in Hget. apply find_some in Hget.
    destruct Hget as [Hin Hm].
    assert (Hf : In t0 (filter (id_matches key_of_text txt) (rows st)))
      by (apply filter_In; split; assumption).
    destruct (filter (id_matches key_of_text txt) (rows st)); [contradiction|].
    simpl List.length in Hc. rewrite Z.gtb_ltb, Z.ltb_ge in Hc. lia.
Qed.

(** X1: a request that is not answered 200 or 201 leaves the store exactly
    as it was, and so does every list request. *)
Theorem errors_keep_store (key_of_text : string -> option Z) (st : store)
    (now : string) (r : request) :
  (status (snd (handle key_of_text st now r)) <> 200 /\
   status (snd (handle key_of_text st now r)) <> 201) \/
  (exists q, r = ListTasks q) ->
  fst (handle key_of_text st now r) = st.
Proof.
  intros H. destruct r as [q|b|txt b|txt|txt]; simpl in *.
  - reflexivity.
  - destruct H as [[_ H]|[q Hq]]; [|discriminate Hq].
    destruct (create_task_cases st now b) as [[msg E]|[s [_ [_ E]]]];
      rewrite E in *; [reflexivity|]. simpl in H. contradiction.
  - destruct H as [[H _]|[q Hq]]; [|discriminate Hq].
    destruct (update_task_cases key_of_text st now txt b)
      as [[code [msg [E _]]]|[t0 [_ [_ [_ [_ E]]]]]];
      rewrite E in *; [reflexivity|]. simpl in H. contradiction.
  - destruct H as [[H _]|[q Hq]]; [|discriminate Hq].
    destruct (toggle_task_cases key_of_text st now txt)
      as [[code [msg [E _]]]|[t0 [_ [_ E]]]]; cbv zeta in E;
      rewrite E in *; [reflexivity|]. simpl in H. contradiction.
  - destruct H as [[H _]|[q Hq]]; [|discriminate Hq].
    destruct (delete_task_cases key_of_text st txt) as [E|[E|[t0 [_ E]]]];
      rewrite E in *; try reflexivity. simpl in H. contradiction.
Qed.

(** X1 at an update with an invalid priority on the seeded table. *)
Lemma errors_keep_store_witness :
  fst (handle decimal_key (init_store sample_clock) "2026-03-01 09:00:00"
         (UpdateTask "2" (mkBody JUndefined TAbsent (JStr "urgent") TAbsent
                            (JBool true))))
  = init_store sample_clock.
Proof.
  apply (errors_keep_store decimal_key (init_store sample_clock)
           "2026-03-01 09:00:00"
           (UpdateTask "2" (mkBody JUndefined TAbsent (JStr "urgent") TAbsent
                              (JBool true)))).
  left. split; vm_compute; discriminate.
Defined.

(** ** Ids are handed out once *)

Lemma max_rowid_nonneg (l : list task) : 0 <= max_rowid l.
Proof. induction l as [|x l IH]; simpl; lia. Qed.

Lemma insert_task_bounded (st : store) (now ttl : string) (descr : option string)
    (prio : string) (due : option string) :
  ids_bounded st ->
  ids_bounded (fst (insert_task st now ttl descr prio due)) /\
  seq st < seq (fst (insert_task st now ttl descr prio due)).
Proof.
  intros H. unfold ids_bounded, insert_task in *. simpl.
  pose proof (max_rowid_nonneg (rows st)). split; [|lia].
  apply Forall_app. split.
  - eapply Forall_impl; [|exact H]. simpl. intros t Ht. lia.
  - constructor; [simpl; lia | constructor].
Qed.

Lemma seed_bounded (l : list (string * option string * string * option string))
    (st : store) (clock : nat -> string) (n : nat) :
  ids_bounded st -> ids_bounded (seed st clock n l).
Proof.
  revert st n. induction l as [|[[[ttl descr] prio] due] r IH]; intros st n H.
  - exact H.
  - simpl. apply IH. now apply insert_task_bounded.
Qed.

Lemma Forall_map_same (P : task -> Prop) (g : task -> task) (l : list task) :
  (forall t, P t -> P (g t)) -> Forall P l -> Forall P (map g l).
Proof.
  intros Hg H. apply Forall_map. eapply Forall_impl; [|exact H]. exact Hg.
Qed.

(** Every request keeps the ids within the counter and never lowers the
    counter. *)
Lemma handle_bounded (key_of_text : string -> option Z) (st : store)
    (now : string) (r : request) :
  ids_bounded st ->
  ids_bounded (fst (handle key_of_text st now r)) /\
  seq st <= seq (fst (handle key_of_text st now r)).
Proof.
  intros H.
  assert (Hsame : ids_bounded st /\ seq st <= seq st) by (split; [exact H | lia]).
  assert (Hmap : forall txt a now',
    ids_bounded (update_where key_of_text st txt (assign a now')) /\
    seq st <= seq (update_where key_of_text st txt (assign a now'))).
  { intros txt a now'. split; [|simpl; lia].
    unfold ids_bounded, update_where. simpl.
    apply Forall_map_same; [|exact H]. intros t Ht.
    destruct (id_matches key_of_text txt t); exact Ht. }
  destruct r as [q|b|txt b|txt|txt]; simpl.
  - exact Hsame.
  - destruct (create_task_cases st now b) as [[msg E]|[s [_ [_ E]]]]; rewrite E.
    + exact Hsame.
    + cbn [fst].
      destruct (insert_task_bounded st now (trim s) (or_null (b_description b))
                  (create_priority (b_priority b)) (or_null (b_due_date b)) H).
      split; [assumption | lia].
  - destruct (update_task_cases key_of_text st now txt b)
      as [[code [msg [E _]]]|[t0 [_ [_ [_ [_ E]]]]]]; rewrite E.
    + exact Hsame.
    + apply Hmap.
  - destruct (toggle_task_cases key_of_text st now txt)
      as [[code [msg [E _]]]|[t0 [_ [_ E]]]]; cbv zeta in E; rewrite E.
    + exact Hsame.
    + apply Hmap.
  - destruct (delete_task_cases key_of_text st txt) as [E|[E|[t0 [_ E]]]];
      rewrite E; try exact Hsame.
    split; [|simpl; lia]. unfold ids_bounded in *. simpl.
    apply Forall_forall. intros t Ht. apply filter_In in Ht.
    rewrite Forall_forall in H. now apply H.
Qed.

Lemma reachable_bounded (key_of_text : string -> option Z) (st : store) :
  reachable key_of_text st -> ids_bounded st.
Proof.
  induction 1 as [clock|st now r _ IH].
  - apply seed_bounded. constructor.
  - now apply handle_bounded.
Qed.

Lemma run_bounded (key_of_text : string -> option Z)
    (trace : list (string * request)) (st : store) :
  ids_bounded st ->
  ids_bounded (run key_of_text st trace) /\ seq st <= seq (run key_of_text st trace).
Proof.
  revert st. induction trace as [|[now r] rest IH]; intros st H; simpl.
  - split; [exact H | lia].
  - destruct (handle_bounded key_of_text st now r H) as [H1 H2].
    destruct (IH _ H1) as [H3 H4]. split; [exact H3 | lia].
Qed.

(** X3: ids are never reused.  A task created after any further requests,
    deletes included, gets an id larger than the id of every task that was
    ever stored before. *)
Theorem ids_never_reused (key_of_text : string -> option Z) (st : store)
    (trace : list (string * request)) (now : string) (b : body) (t u : task) :
  reachable key_of_text st -> In u (rows st) ->
  snd (create_task (run key_of_text st trace) now b)
  = mkResponse 201 (PTask (Some t)) ->
  id u < id t.
Proof.
  intros Hreach Hu Hc.
  pose proof (reachable_bounded key_of_text st Hreach) as Hb.
  destruct (run_bounded key_of_text trace st Hb) as [_ Hseq].
  unfold ids_bounded in Hb. rewrite Forall_forall in Hb. specialize (Hb u Hu).
  destruct (create_task_cases (run key_of_text st trace) now b)
    as [[msg E]|[s [_ [_ E]]]]; rewrite E in Hc; [discriminate Hc|].
  simpl in Hc. injection Hc as <-. simpl. lia.
Qed.

(** X3 on the seeded table: task 3 is deleted, the next task is number 4. *)
Lemma ids_never_reused_witness : 3 < 4.
Proof.
  apply (ids_never_reused decimal_key (init_store sample_clock)
           [("2026-03-01 09:00:00", DeleteTask "3")]
           "2026-03-01 09:01:00"
           (mkBody (JStr "Buy milk") TAbsent JUndefined TAbsent JUndefined)
           (mkTask 4 "Buy milk" None 0 "medium" None
              "2026-03-01 09:01:00" "2026-03-01 09:01:00")
           (mkTask 3 "Update dependencies" (Some "Check and update npm packages")
              0 "low" None "2026-02-01 08:00:00" "2026-02-01 08:00:00")).
  - apply reach_init.
  - vm_compute. right. right. left. reflexivity.
  - vm_compute. reflexivity.
Defined.

(** ** The other sort keys of the list route *)

Lemma string_leb_trans (a b c : string) :
  String.leb a b = true -> String.leb b c = true -> String.leb a c = true.
Proof.
  unfold String.leb. revert b c.
  induction a as [|x a IH]; intros [|y b] [|z c]; simpl; try congruence.
  unfold Ascii.compare.
  destruct (N.compare_spec (N_of_ascii x) (N_of_ascii y)) as [E1|L1|G1];
    try discriminate;
    destruct (N.compare_spec (N_of_ascii y) (N_of_ascii z)) as [E2|L2|G2];
    try discriminate; intros H1 H2.
  - rewrite E1, E2, N.compare_refl. now apply (IH b c).
  - rewrite E1. apply N.compare_lt_iff in L2. now rewrite L2.
  - rewrite <- E2. apply N.compare_lt_iff in L1. now rewrite L1.
  - assert (L : (N_of_ascii x < N_of_ascii z)%N) by lia.
    apply N.compare_lt_iff in L. now rewrite L.
Qed.

Lemma string_leb_false (a b : string) :
  String.leb a b = false -> String.leb b a = true.
Proof.
  intros H. destruct (String.leb_total a b) as [E|E]; [congruence | exact E].
Qed.

Lemma due_date_leb_total (a b : option string) :
  due_date_leb a b = false -> due_date_leb b a = true.
Proof.
  destruct a, b; simpl; try congruence. apply string_leb_false.
Qed.

Lemma due_date_leb_trans (a b c : option string) :
  due_date_leb a b = true -> due_date_leb b c = true -> due_date_leb a c = true.
Proof.
  destruct a, b, c; simpl; try congruence. apply string_leb_trans.
Qed.

(** X4: with sort=due_date the answer lists every task that has a due date
    before every task that has none, and the dated tasks in ascending order
    of the date text. *)
Theorem due_date_sort_order (st : store) (q : query) (i j : nat) (a b : task) :
  q_sort q = JStr "due_date" ->
  nth_error (select_tasks st q) i = Some a ->
  nth_error (select_tasks st q) j = Some b ->
  (i < j)%nat ->
  (due_date a = None -> due_date b = None) /\
  (forall x y, due_date a = Some x -> due_date b = Some y ->
               String.leb x y = true).
Proof.
  intros Hsort Hi Hj Hlt.
  assert (H : due_date_leb (due_date a) (due_date b) = true).
  { unfold select_tasks in Hi, Hj.
    assert (Ho : order_clause q = fun a b => due_date_leb (due_date a) (due_date b)).
    { unfold order_clause. rewrite Hsort. reflexivity. }
    rewrite Ho in Hi, Hj.
    refine (sorted_positions _ _ (order_by_sorted _ _ _ _) i j a b Hi Hj Hlt).
    - intros x y. apply due_date_leb_total.
    - intros x y z. apply due_date_leb_trans. }
  split.
  - intros Ea. rewrite Ea in H. destruct (due_date b); [discriminate | reflexivity].
  - intros x y Ea Eb. rewrite Ea, Eb in H. exact H.
Qed.

(** X4 on the seeded table: the task due 02-14 comes first, the undated
    task last. *)
Lemma due_date_sort_order_witness :
  map id (select_tasks (init_store sample_clock)
            (mkQuery JUndefined JUndefined (JStr "due_date"))) = [2; 1; 3] /\
  String.leb "2026-02-14" "2026-02-15" = true.
Proof.
  split; [vm_compute; reflexivity|].
  refine (proj2 (due_date_sort_order (init_store sample_clock)
            (mkQuery JUndefined JUndefined (JStr "due_date")) 0%nat 1%nat
            (mkTask 2 "Review pull requests" (Some "Review and merge pending PRs")
               0 "medium" (Some "2026-02-14")
               "2026-02-01 08:00:00" "2026-02-01 08:00:00")
            (mkTask 1 "Complete project documentation"
               (Some "Write comprehensive docs for the TODO app") 0 "high"
               (Some "2026-02-15") "2026-02-01 08:00:00" "2026-02-01 08:00:00")
            eq_refl _ _ _) "2026-02-14" "2026-02-15" eq_refl eq_refl).
  - vm_compute. reflexivity.
  - vm_compute. reflexivity.
  - lia.
Defined.

(** X5: with sort=title the answer is in ascending order of the titles,
    compared code unit by code unit. *)
Theorem title_sort_order (st : store) (q : query) (i j : nat) (a b : task) :
  q_sort q = JStr "title" ->
  nth_error (select_tasks st q) i = Some a ->
  nth_error (select_tasks st q) j = Some b ->
  (i < j)%nat ->
  String.leb (title a) (title b) = true.
Proof.
  intros Hsort Hi Hj Hlt. unfold select_tasks in Hi, Hj.
  assert (Ho : order_clause q = fun a b => String.leb (title a) (title b)).
  { unfold order_clause. rewrite Hsort. reflexivity. }
  rewrite Ho in Hi, Hj.
  refine (sorted_positions _ _ (order_by_sorted _ _ _ _) i j a b Hi Hj Hlt).
  - intros x y. apply string_leb_false.
  - intros x y z. apply string_leb_trans.
Qed.

(** X5 on the seeded table. *)
Lemma title_sort_order_witness :
  map id (select_tasks (init_store sample_clock)
            (mkQuery JUndefined JUndefined (JStr "title"))) = [1; 2; 3] /\
  String.leb "Review pull requests" "Update dependencies" = true.
Proof.
  split; [vm_compute; reflexivity|].
  refine (title_sort_order (init_store sample_clock)
            (mkQuery JUndefined JUndefined (JStr "title")) 1%nat 2%nat
            (mkTask 2 "Review pull requests" (Some "Review and merge pending PRs")
               0 "medium" (Some "2026-02-14")
               "2026-02-01 08:00:00" "2026-02-01 08:00:00")
            (mkTask 3 "Update dependencies" (Some "Check and update npm packages")
               0 "low" None "2026-02-01 08:00:00" "2026-02-01 08:00:00")
            eq_refl _ _ _).
  - vm_compute. reflexivity.
  - vm_compute. reflexivity.
  - lia.
Defined.

(** X6: with no sort key, or one that is none of due_date, priority and
    title (the client's own default "created_at" among them), the answer is
    newest first: creation times, compared as the timestamp texts they are,
    never increase along the list. *)
Theorem default_sort_order (st : store) (q : query) (i j : nat) (a b : task) :
  q_sort q <> JStr "due_date" -> q_sort q <> JStr "priority" ->
  q_sort q <> JStr "title" ->
  nth_error (select_tasks st q) i = Some a ->
  nth_error (select_tasks st q) j = Some b ->
  (i < j)%nat ->
  String.leb (created_at b) (created_at a) = true.
Proof.
  intros Hd Hp Ht Hi Hj Hlt. unfold select_tasks in Hi, Hj.
  assert (Hne : forall lit, q_sort q <> JStr lit -> strict_eq_str (q_sort q) lit = false).
  { intros lit H. destruct (q_sort q) as [| |x|n|s|]; try reflexivity.
    simpl. apply String.eqb_neq. congruence. }
  assert (Ho : order_clause q = fun a b => String.leb (created_at b) (created_at a)).
  { unfold order_clause. rewrite (Hne _ Hd), (Hne _ Hp), (Hne _ Ht). reflexivity. }
  rewrite Ho in Hi, Hj.
  refine (sorted_positions _ _ (order_by_sorted _ _ _ _) i j a b Hi Hj Hlt).
  - intros x y. apply string_leb_false.
  - intros x y z H1 H2. eapply string_leb_trans; eassumption.
Qed.

(** X6 on [release_store] with the client's default sort value. *)
Lemma default_sort_order_witness :
  map id (select_tasks release_store
            (mkQuery JUndefined JUndefined (JStr "created_at"))) = [4; 1; 2; 3] /\
  String.leb "2026-02-01 08:00:00" "2026-03-01 09:00:00" = true.
Proof.
  split; [vm_compute; reflexivity|].
  refine (default_sort_order release_store
            (mkQuery JUndefined JUndefined (JStr "created_at")) 0%nat 1%nat
            (mkTask 4 "Ship release" None 0 "high" None
               "2026-03-01 09:00:00" "2026-03-01 09:00:00")
            (mkTask 1 "Complete project documentation"
               (Some "Write comprehensive docs for the TODO app") 0 "high"
               (Some "2026-02-15") "2026-02-01 08:00:00" "2026-02-01 08:00:00")
            _ _ _ _ _ _).
  - discriminate.
  - discriminate.
  - discriminate.
  - vm_compute. reflexivity.
  - vm_compute. reflexivity.
  - lia.
Defined.

(** ** The status filters split the list *)

Lemma filter_split_lengths (f1 f2 f3 : task -> bool) (l : list task) :
  Forall (fun t => (Nat.b2n (f1 t) + Nat.b2n (f2 t) = Nat.b2n (f3 t))%nat) l ->
  (List.length (filter f1 l) + List.length (filter f2 l)
   = List.length (filter f3 l))%nat.
Proof.
  induction 1 as [|t l Ht _ IH]; [reflexivity|].
  cbn [filter]. destruct (f1 t), (f2 t), (f3 t); simpl in *; lia.
Qed.

Lemma status_split_lengths (pr : jsval) (s1 s2 s3 : jsval) (l : list task) :
  Forall row_ok l ->
  (List.length (filter (where_clause (mkQuery (JStr "active") pr s1)) l)
   + List.length (filter (where_clause (mkQuery (JStr "completed") pr s2)) l)
   = List.length (filter (where_clause (mkQuery JUndefined pr s3)) l))%nat.
Proof.
  intros H. apply filter_split_lengths.
  eapply Forall_impl; [|exact H]. intros t [Hc _].
  unfold where_clause. cbn [q_status q_priority strict_eq_str].
  change ("active" =? "active")%string with true.
  change ("completed" =? "active")%string with false.
  change ("completed" =? "completed")%string with true.
  cbn iota.
  destruct (if truthy pr && includes validPriorities pr
            then match pr with
                 | JStr p => (priority t =? p)%string
                 | _ => true
                 end
            else true);
    destruct Hc as [Hc|Hc]; rewrite Hc; reflexivity.
Qed.

(** X7: in every reachable store, whatever the priority filter and the sort
    keys, the tasks listed with status=active and those listed with
    status=completed together number exactly the tasks listed without a
    status filter. *)
Theorem status_filters_partition (key_of_text : string -> option Z) (st : store)
    (pr s1 s2 s3 : jsval) :
  reachable key_of_text st ->
  (List.length (select_tasks st (mkQuery (JStr "active") pr s1))
   + List.length (select_tasks st (mkQuery (JStr "completed") pr s2))
   = List.length (select_tasks st (mkQuery JUndefined pr s3)))%nat.
Proof.
  intros Hreach. apply reachable_ok in Hreach. destruct Hreach as [_ Hall].
  unfold select_tasks.
  rewrite !(Permutation_length (order_by_perm _ _)).
  now apply status_split_lengths.
Qed.

(** X7 on [busy_store]: two active tasks, two completed, four in all. *)
Lemma status_filters_partition_witness :
  (List.length (select_tasks busy_store (mkQuery (JStr "active") JUndefined JUndefined))
   + List.length (select_tasks busy_store
                    (mkQuery (JStr "completed") JUndefined (JStr "title")))
   = List.length (select_tasks busy_store (mkQuery JUndefined JUndefined JUndefined)))%nat.
Proof.
  apply (status_filters_partition decimal_key busy_store).
  unfold busy_store. apply reach_step. apply reach_step. apply reach_step.
  apply reach_init.
Defined.

(** ** Toggle and update *)

(** X8: toggling a task is the same request as an update whose only field
    is completed, set to true when the task is active and to false when it
    is completed: both leave the same store and give the same answer. *)
Theorem toggle_is_update (key_of_text : string -> option Z) (st : store)
    (now txt : string) (t0 : task) :
  get_by_id key_of_text st txt = Some t0 ->
  toggle_task key_of_text st now txt
  = update_task key_of_text st now txt
      (mkBody JUndefined TAbsent JUndefined TAbsent
         (JBool (negb (completed t0 =? 1)))).
Proof.
  intros Hget. unfold toggle_task, update_task.
  destruct (bad_id txt); [reflexivity|]. rewrite Hget.
  cbn [b_title b_priority is_undefined negb andb].
  unfold updates. cbn [b_title b_priority b_description b_due_date b_completed
                        is_undefined pushed_text truthy].
  destruct (completed t0 =? 1); reflexivity.
Qed.

(** X8 on the seeded table, task 2. *)
Lemma toggle_is_update_witness :
  toggle_task decimal_key (init_store sample_clock) "2026-03-01 09:00:00" "2"
  = update_task decimal_key (init_store sample_clock) "2026-03-01 09:00:00" "2"
      (mkBody JUndefined TAbsent JUndefined TAbsent (JBool true)).
Proof.
  apply (toggle_is_update decimal_key (init_store sample_clock)
           "2026-03-01 09:00:00" "2"
           (mkTask 2 "Review pull requests" (Some "Review and merge pending PRs")
              0 "medium" (Some "2026-02-14")
              "2026-02-01 08:00:00" "2026-02-01 08:00:00")).
  reflexivity.
Defined.

Lemma assign_twice (a : assignments) (now1 now2 : string) (t : task) :
  assign a now2 (assign a now1 t) = assign a now2 t.
Proof.
  unfold assign. simpl.
  destruct (set_title a), (set_description a), (set_completed a),
    (set_priority a), (set_due_date a); reflexivity.
Qed.

Lemma update_where_twice (key_of_text : string -> option Z) (st : store)
    (txt : string) (a : assignments) (now1 now2 : string) :
  update_where key_of_text
    (update_where key_of_text st txt (assign a now1)) txt (assign a now2)
  = update_where key_of_text st txt (assign a now2).
Proof.
  unfold update_where. simpl. f_equal. rewrite map_map. apply map_ext.
  intros t. destruct (id_matches key_of_text txt t) eqn:E.
  - rewrite (id_matches_same_id key_of_text txt (assign a now1 t) t (assign_id _ _ _)).
    rewrite E. apply assign_twice.
  - now rewrite E.
Qed.

(** X9: a successful update sent a second time changes nothing but
    updated_at: the store and the answer after both are those of the one
    update made at the later time. *)
Theorem update_repeated (key_of_text : string -> option Z) (st : store)
    (now1 now2 txt : string) (b : body) :
  status (snd (update_task key_of_text st now1 txt b)) = 200 ->
  update_task key_of_text (fst (update_task key_of_text st now1 txt b)) now2 txt b
  = update_task key_of_text st now2 txt b.
Proof.
  intros H200.
  destruct (update_task_cases key_of_text st now1 txt b)
    as [[code [msg [E Hc]]]|[t0 [Hid [Hget [Ht [Hp E]]]]]].
  - rewrite E in H200. simpl in H200. contradiction.
  - rewrite E. cbn [fst].
    assert (Hget1 : get_by_id key_of_text
                      (update_where key_of_text st txt (assign (updates b) now1)) txt
                    = Some (assign (updates b) now1 t0)).
    { rewrite get_after_update by (intros; apply assign_id). now rewrite Hget. }
    rewrite (update_task_accepts key_of_text _ now2 txt b _ Hid Hget1 Ht Hp).
    rewrite (update_task_accepts key_of_text st now2 txt b t0 Hid Hget Ht Hp).
    rewrite update_where_twice, assign_twice. reflexivity.
Qed.

(** X9 on the seeded table: renaming task 1 twice. *)
Lemma update_repeated_witness :
  update_task decimal_key
    (fst (update_task decimal_key (init_store sample_clock) "2026-03-01 09:00:00"
            "1" (mkBody (JStr " Write docs ") TAbsent JUndefined TNull JUndefined)))
    "2026-03-01 09:05:00" "1"
    (mkBody (JStr " Write docs ") TAbsent JUndefined TNull JUndefined)
  = update_task decimal_key (init_store sample_clock) "2026-03-01 09:05:00" "1"
      (mkBody (JStr " Write docs ") TAbsent JUndefined TNull JUndefined).
Proof.
  apply (update_repeated decimal_key (init_store sample_clock)
           "2026-03-01 09:00:00" "2026-03-01 09:05:00" "1"
           (mkBody (JStr " Write docs ") TAbsent JUndefined TNull JUndefined)).
  vm_compute. reflexivity.
Defined.

(** ** Empty text fields *)



(** ** Stored titles *)

Lemma trimStart_clean (s : string) : starts_clean (trimStart s).
Proof.
  induction s as [|c r IH]; simpl; [exact I|].
  destruct (is_space c) eqn:E; [exact IH | exact E].
Qed.

Lemma trimStart_of_clean (s : string) : starts_clean s -> trimStart s = s.
Proof. destruct s as [|c r]; simpl; [reflexivity|]. now intros ->. Qed.

Lemma trimEnd_clean (s : string) : starts_clean s -> starts_clean (trimEnd s).
Proof.
  destruct s as [|c r]; simpl; [tauto|]. intros E.
  destruct (trimEnd r); [rewrite E|]; exact E.
Qed.

Lemma trimEnd_idem (s : string) : trimEnd (trimEnd s) = trimEnd s.
Proof.
  induction s as [|c r IH]; simpl; [reflexivity|].
  destruct (trimEnd r) as [|c' r'] eqn:E.
  - destruct (is_space c) eqn:Ec; simpl; [reflexivity|]. now rewrite Ec.
  - simpl in *. now rewrite IH.
Qed.

(** Trimming a trimmed string changes nothing. *)
Lemma trim_idem (s : string) : trim (trim s) = trim s.
Proof.
  unfold trim.
  rewrite (trimStart_of_clean (trimEnd (trimStart s))).
  - apply trimEnd_idem.
  - apply trimEnd_clean, trimStart_clean.
Qed.

Lemma trimmed_title_in_shape (s : string) (t : task) :
  valid_title s -> title t = trim s -> title_in_shape t.
Proof.
  intros [Hne Hlen] E. unfold title_in_shape. rewrite E.
  split; [exact Hne|]. split; [apply trim_idem|].
  pose proof (trim_length s). lia.
Qed.

Lemma seed_titles (l : list (string * option string * string * option string))
    (st : store) (clock : nat -> string) (n : nat) :
  Forall title_in_shape (rows st) ->
  Forall (fun e => let ttl := fst (fst (fst e)) in
                   ttl <> "" /\ trim ttl = ttl /\ (String.length ttl <= 200)%nat) l ->
  Forall title_in_shape (rows (seed st clock n l)).
Proof.
  revert st n. induction l as [|[[[ttl descr] prio] due] r IH]; intros st n Hst Hl.
  - exact Hst.
  - simpl. inversion Hl as [|e r' He Hr]; subst. apply IH; [|exact Hr].
    simpl. apply Forall_app. split; [exact Hst|].
    constructor; [exact He | constructor].
Qed.

Lemma handle_titles (key_of_text : string -> option Z) (st : store)
    (now : string) (r : request) :
  Forall title_in_shape (rows st) ->
  Forall title_in_shape (rows (fst (handle key_of_text st now r))).
Proof.
  intros H.
  assert (Hmap : forall txt a now',
    (forall t, title_in_shape t -> title_in_shape (assign a now' t)) ->
    Forall title_in_shape (rows (update_where key_of_text st txt (assign a now')))).
  { intros txt a now' Ha. unfold update_where. simpl.
    apply Forall_map_same; [|exact H]. intros t Ht.
    destruct (id_matches key_of_text txt t); [now apply Ha | exact Ht]. }
  destruct r as [q|b|txt b|txt|txt]; simpl.
  - exact H.
  - destruct (create_task_cases st now b) as [[msg E]|[s [_ [Hv E]]]]; rewrite E.
    + exact H.
    + simpl. apply Forall_app. split; [exact H|].
      constructor; [|constructor]. now apply (trimmed_title_in_shape s).
  - destruct (update_task_cases key_of_text st now txt b)
      as [[code [msg [E _]]]|[t0 [_ [_ [Ht [_ E]]]]]]; rewrite E.
    + exact H.
    + apply Hmap. intros t Hs.
      destruct Ht as [Et|[s [Et Hv]]].
      * unfold title_in_shape, assign, updates. simpl. rewrite Et. exact Hs.
      * apply (trimmed_title_in_shape s); [exact Hv|].
        unfold assign, updates. simpl. now rewrite Et.
  - destruct (toggle_task_cases key_of_text st now txt)
      as [[code [msg [E _]]]|[t0 [_ [_ E]]]]; cbv zeta in E; rewrite E.
    + exact H.
    + apply Hmap. intros t Hs. exact Hs.
  - destruct (delete_task_cases key_of_text st txt) as [E|[E|[t0 [_ E]]]];
      rewrite E; try exact H.
    simpl. apply Forall_forall. intros t Ht. apply filter_In in Ht.
    rewrite Forall_forall in H. now apply H.
Qed.

Lemma reachable_titles (key_of_text : string -> option Z) (st : store) :
  reachable key_of_text st -> Forall title_in_shape (rows st).
Proof.
  induction 1 as [clock|st now r _ IH].
  - apply seed_titles; [constructor|].
    unfold initialTasks.
    repeat (constructor; [cbv zeta; cbn [fst];
                          split; [discriminate|];
                          split; [vm_compute; reflexivity | simpl; lia]|]).
    constructor.
  - now apply handle_titles.
Qed.

(** X11: in every reachable store every title is non-empty, carries no
    leading or trailing white space and is at most 200 code units long. *)
Theorem reachable_titles_in_shape (key_of_text : string -> option Z)
    (st : store) (t : task) :
  reachable key_of_text st -> In t (rows st) ->
  title t <> "" /\ trim (title t) = title t /\
  (String.length (title t) <= 200)%nat.
Proof.
  intros Hreach Hin.
  pose proof (reachable_titles key_of_text st Hreach) as H.
  rewrite Forall_forall in H. exact (H t Hin).
Qed.

(** X11 on [busy_store], at the task created there. *)
Lemma reachable_titles_in_shape_witness :
  "Buy milk" <> "" /\ trim "Buy milk" = "Buy milk" /\
  (String.length "Buy milk" <= 200)%nat.
Proof.
  assert (Hr : reachable decimal_key busy_store).
  { unfold busy_store. apply reach_step. apply reach_step. apply reach_step.
    apply reach_init. }
  apply (reachable_titles_in_shape decimal_key busy_store
           (mkTask 4 "Buy milk" None 1 "low" None
              "2026-03-01 09:00:00" "2026-03-01 09:01:00") Hr).
  vm_compute. right. right. right. left. reflexivity.
Defined.

(** ** Ids in request paths *)

Lemma option_map_mul1 (o : option Z) : option_map (Z.mul 1) o = o.
Proof. destruct o as [z|]; simpl; [|reflexivity]. f_equal. now destruct z. Qed.

Lemma is_dec_not_x (x : ascii) :
  is_dec x = true -> (x =? "x")%char || (x =? "X")%char = false.
Proof.
  destruct x as [[] [] [] [] [] [] [] []]; intros H;
    try (vm_compute in H; discriminate H); reflexivity.
Qed.

(** [parseInt] on a run of decimal digits, bare or behind a minus sign. *)
Lemma parseInt_all_dec (c : ascii) (r : string) :
  all_dec (String c r) = true ->
  parseInt (String c r) = read_digits 10 (String c r) None /\
  parseInt (String "-" (String c r))
  = option_map (Z.mul (-1)) (read_digits 10 (String c r) None).
Proof.
  simpl. intros H. apply andb_true_iff in H. destruct H as [Hc Hr].
  assert (Hx : match r with
               | String x _ => (x =? "x")%char || (x =? "X")%char = false
               | _ => True
               end).
  { destruct r as [|x r']; [exact I|]. simpl in Hr. apply andb_true_iff in Hr.
    now apply is_dec_not_x. }
  destruct c as [[] [] [] [] [] [] [] []];
    try (vm_compute in Hc; discriminate Hc); clear Hc;
    unfold parseInt; cbn -[read_digits Z.mul option_map];
    try (split; [apply option_map_mul1 | reflexivity]).
  destruct r as [|x r']; cbn -[read_digits Z.mul option_map].
  - split; reflexivity.
  - rewrite Hx. split; [apply option_map_mul1 | reflexivity].
Qed.

Lemma digit_char_value (d : Z) :
  0 <= d < 10 -> digit_value 10 (digit_char d) = Some d.
Proof.
  intros H.
  assert (E : d = 0 \/ d = 1 \/ d = 2 \/ d = 3 \/ d = 4 \/ d = 5 \/ d = 6 \/
              d = 7 \/ d = 8 \/ d = 9) by lia.
  repeat (destruct E as [->|E]; [reflexivity|]). subst. reflexivity.
Qed.

Lemma digit_char_dec (d : Z) : 0 <= d < 10 -> is_dec (digit_char d) = true.
Proof. intros H. unfold is_dec. now rewrite digit_char_value. Qed.

Lemma show_digits_all_dec (f : nat) (n : Z) (acc : string) :
  0 <= n -> all_dec acc = true -> all_dec (show_digits f n acc) = true.
Proof.
  revert n acc. induction f as [|f IH]; intros n acc Hn Hacc; simpl; [exact Hacc|].
  destruct (Z.ltb_spec n 10).
  - simpl. rewrite digit_char_dec by lia. exact Hacc.
  - apply IH.
    + apply Z.div_pos; lia.
    + simpl. rewrite digit_char_dec; [exact Hacc|]. apply Z.mod_pos_bound. lia.
Qed.

Lemma show_digits_nonempty (f : nat) (n : Z) (acc : string) :
  f <> 0%nat \/ acc <> "" -> show_digits f n acc <> "".
Proof.
  revert n acc. induction f as [|f IH]; intros n acc H; simpl.
  - destruct H as [H|H]; [contradiction | exact H].
  - destruct (n <? 10); [discriminate|]. apply IH. right. discriminate.
Qed.

(** Reading back the digits that [show_digits] wrote. *)
Lemma read_show_digits (f : nat) (n : Z) (acc : string) :
  f <> 0%nat -> 0 <= n < 2 ^ Z.of_nat f ->
  read_digits 10 (show_digits f n acc) None = read_digits 10 acc (Some n).
Proof.
  revert n acc. induction f as [|f IH]; intros n acc Hf Hn; [contradiction|].
  simpl show_digits. destruct (Z.ltb_spec n 10) as [Hlt|Hge].
  - simpl. now rewrite digit_char_value by lia.
  - rewrite Nat2Z.inj_succ, Z.pow_succ_r in Hn by lia.
    assert (Hq : 0 <= n / 10 < 2 ^ Z.of_nat f).
    { split; [apply Z.div_pos; lia|].
      apply Z.div_lt_upper_bound; lia. }
    assert (Hq1 : 1 <= n / 10) by (apply Z.div_le_lower_bound; lia).
    assert (Hf' : f <> 0%nat).
    { intros ->. simpl in Hq. lia. }
    rewrite (IH (n / 10) _ Hf' Hq). simpl.
    rewrite digit_char_value by (apply Z.mod_pos_bound; lia).
    f_equal. f_equal. pose proof (Z.div_mod n 10). lia.
Qed.

Lemma log2_fuel (n : Z) :
  0 <= n -> 0 <= n < 2 ^ Z.of_nat (S (Z.to_nat (Z.log2 n))).
Proof.
  intros Hn. split; [exact Hn|].
  rewrite Nat2Z.inj_succ, Z2Nat.id by apply Z.log2_nonneg.
  destruct (Z.eq_dec n 0) as [->|Hne]; [reflexivity|].
  apply Z.log2_spec. lia.
Qed.

Lemma show_unsigned (n : Z) :
  0 <= n ->
  exists c r, show_digits (S (Z.to_nat (Z.log2 n))) n "" = String c r /\
    all_dec (String c r) = true /\
    read_digits 10 (String c r) None = Some n.
Proof.
  intros Hn.
  destruct (show_digits (S (Z.to_nat (Z.log2 n))) n "") as [|c r] eqn:E.
  - exfalso. revert E. apply show_digits_nonempty. left. discriminate.
  - exists c, r. split; [reflexivity|]. rewrite <- E. split.
    + now apply show_digits_all_dec.
    + rewrite read_show_digits; [reflexivity | discriminate | now apply log2_fuel].
Qed.

(** X12: the decimal text the client puts in a request path for a task id
    is read back by the server's [parseInt] as that id, so the id guard lets
    it through and the delete confirmation can return it.  (Stated for the
    integers a JavaScript number holds exactly.) *)
Theorem parseInt_show_id (k : Z) :
  Z.abs k < 2 ^ 53 ->
  parseInt (show_id k) = Some k /\ bad_id (show_id k) = false.
Proof.
  intros _.
  assert (H : parseInt (show_id k) = Some k).
  { unfold show_id. destruct (Z.ltb_spec k 0) as [Hneg|Hpos].
    - destruct (show_unsigned (- k)) as [c [r [E [Hd Hr]]]]; [lia|].
      rewrite E. rewrite (proj2 (parseInt_all_dec c r Hd)), Hr.
      unfold option_map. f_equal. lia.
    - destruct (show_unsigned k Hpos) as [c [r [E [Hd Hr]]]].
      rewrite E. rewrite (proj1 (parseInt_all_dec c r Hd)). exact Hr. }
  split; [exact H | now apply (parseInt_some_good_id _ k)].
Qed.

(** X12 at the id 1207. *)
Lemma parseInt_show_id_witness :
  show_id 1207 = "1207" /\ parseInt (show_id 1207) = Some 1207 /\
  bad_id (show_id 1207) = false.
Proof.
  split; [vm_compute; reflexivity|].
  apply (parseInt_show_id 1207). vm_compute. reflexivity.
Defined.

(** ** The client's validation and the dialog *)

(** X13: the client's title check and the server's agree on every string:
    the dialog reports exactly the error the server would answer, and passes
    exactly the titles the server accepts. *)
Theorem validateTaskTitle_agrees (s : string) :
  validateTaskTitle s = title_error (JStr s).
Proof.
  unfold validateTaskTitle, title_error.
  cbn [truthy]. now rewrite negb_involutive.
Qed.

Lemma stored_on_create_text (s : string) : or_null (TText s) = stored_on_create s.
Proof. reflexivity. Qed.

(** X14: what the add-task dialog and the create route do together.  When
    the dialog refuses the form, the server would have answered 400 with the
    very message the dialog shows; when it submits, the create is answered
    201 and the new task has the trimmed title, completed 0, the form's
    priority if it is one of the three (medium otherwise), and description
    and due date as typed, an empty field being stored as NULL. *)
Theorem dialog_submit_creates (st : store) (now : string) (fd : formData) :
  (forall e, handleSubmit fd = inl e ->
     create_task st now (taskData fd) = (st, fail 400 e)) /\
  (forall data, handleSubmit fd = inr data ->
     exists t,
       create_task st now data
       = (mkStore (rows st ++ [t]) (id t), mkResponse 201 (PTask (Some t))) /\
       title t = trim (f_title fd) /\ completed t = 0 /\
       description t = stored_on_create (f_description fd) /\
       due_date t = stored_on_create (f_due_date fd) /\
       (In (f_priority fd) validPriorities -> priority t = f_priority fd) /\
       (~ In (f_priority fd) validPriorities -> priority t = "medium")).
Proof.
  assert (Hv : validateTaskTitle (f_title fd) = title_error (JStr (f_title fd))).
  { unfold validateTaskTitle, title_error. simpl. now rewrite negb_involutive. }
  unfold handleSubmit. rewrite Hv. clear Hv. split.
  - intros e H. destruct (title_error (JStr (f_title fd))) as [msg|] eqn:E;
      [|discriminate H]. injection H as <-. now apply create_task_rejects.
  - intros data H. destruct (title_error (JStr (f_title fd))) as [msg|] eqn:E;
      [discriminate H|]. injection H as <-.
    apply title_error_None in E. destruct E as [s [Es Hv]]. injection Es as <-.
    pose proof (create_task_accepts st now (taskData fd) (f_title fd) eq_refl Hv) as Hc.
    cbv zeta in Hc. eexists. split; [exact Hc|]. simpl.
    split; [reflexivity|]. split; [reflexivity|]. split; [reflexivity|].
    split.
    { destruct (String.eqb_spec (f_due_date fd) "") as [->|Hne]; simpl;
        [reflexivity|]. unfold stored_on_create.
      apply String.eqb_neq in Hne. now rewrite Hne. }
    change ((f_priority fd =? "high")%string || ((f_priority fd =? "medium")%string
            || ((f_priority fd =? "low")%string || false)))
      with (existsb (String.eqb (f_priority fd)) validPriorities).
    destruct (existsb (String.eqb (f_priority fd)) validPriorities) eqn:Ep.
    + split; [reflexivity|]. intros Hn. apply existsb_valid_In in Ep. contradiction.
    + split; [|reflexivity]. intros Hin. apply existsb_valid_In in Hin. congruence.
Qed.

(** X14 at a form with a padded title and no due date. *)
Lemma dialog_submit_creates_witness :
  exists t,
    create_task (init_store sample_clock) "2026-03-01 09:00:00"
      (taskData (mkForm " Buy milk " "" "low" ""))
    = (mkStore (rows (init_store sample_clock) ++ [t]) (id t),
       mkResponse 201 (PTask (Some t))) /\
    title t = "Buy milk" /\ description t = None /\ due_date t = None /\
    priority t = "low".
Proof.
  destruct (proj2 (dialog_submit_creates (init_store sample_clock)
                     "2026-03-01 09:00:00" (mkForm " Buy milk " "" "low" ""))
              (taskData (mkForm " Buy milk " "" "low" "")) eq_refl)
    as [t [H1 [H2 [_ [H3 [H4 [H5 _]]]]]]].
  exists t. split; [exact H1|]. split; [exact H2|]. split; [exact H3|].
  split; [exact H4|]. apply H5. simpl. tauto.
Defined.

(** ** The task counter *)

Lemma count_split (l : list task) :
  Forall (fun t => completed t = 0 \/ completed t = 1) l ->
  (List.length (filter (fun t => (completed t =? 0)%Z) l)
   + List.length (filter (fun t => (completed t =? 1)%Z) l) = List.length l)%nat.
Proof.
  induction 1 as [|t l Ht _ IH]; [reflexivity|].
  cbn [filter]. destruct Ht as [-> | ->]; simpl; lia.
Qed.

Lemma filter_all {A : Type} (f : A -> bool) (l : list A) :
  (forall x, In x l -> f x = true) -> filter f l = l.
Proof.
  induction l as [|x l IH]; simpl; intros H; [reflexivity|].
  rewrite (H x) by now left. f_equal. apply IH. intros y Hy. apply H. now right.
Qed.

Lemma filter_nothing {A : Type} (f : A -> bool) (l : list A) :
  (forall x, In x l -> f x = false) -> filter f l = [].
Proof.
  induction l as [|x l IH]; simpl; intros H; [reflexivity|].
  rewrite (H x) by now left. apply IH. intros y Hy. apply H. now right.
Qed.

Lemma select_tasks_In (st : store) (q : query) (t : task) :
  In t (select_tasks st q) <->
  In t (rows st) /\ status_selects (q_status q) t
  /\ priority_selects (q_priority q) t.
Proof.
  rewrite <- where_clause_spec, <- filter_In. unfold select_tasks. split.
  - apply Permutation_in, order_by_perm.
  - apply Permutation_in. symmetry. apply order_by_perm.
Qed.

(** X15: the counter shown above the list, fed with the answer of a list
    request on a reachable store.  Its two counts add up to the number of
    tasks listed; with the filter status=active it shows every listed task
    as active and 0 completed, with status=completed 0 active; and the noun
    is "task" exactly when one task is active. *)
Theorem counter_on_list (key_of_text : string -> option Z) (st : store) (q : query) :
  reachable key_of_text st ->
  (fst (fst (TaskCounter (select_tasks st q))) + snd (TaskCounter (select_tasks st q))
   = List.length (select_tasks st q))%nat /\
  (q_status q = JStr "active" ->
   fst (fst (TaskCounter (select_tasks st q))) = List.length (select_tasks st q) /\
   snd (TaskCounter (select_tasks st q)) = 0%nat) /\
  (q_status q = JStr "completed" ->
   fst (fst (TaskCounter (select_tasks st q))) = 0%nat /\
   snd (TaskCounter (select_tasks st q)) = List.length (select_tasks st q)) /\
  (snd (fst (TaskCounter (select_tasks st q))) = "task" <->
   fst (fst (TaskCounter (select_tasks st q))) = 1%nat).
Proof.
  intros Hreach. apply reachable_ok in Hreach. destruct Hreach as [_ Hall].
  rewrite Forall_forall in Hall.
  pose proof (select_tasks_In st q) as Hin.
  unfold TaskCounter. cbn [fst snd].
  split; [|split; [|split]].
  - apply count_split. apply Forall_forall. intros t Ht.
    apply Hin in Ht. destruct Ht as [Ht _]. now apply Hall.
  - intros Hs.
    assert (H0 : forall t, In t (select_tasks st q) -> completed t = 0).
    { intros t Ht. apply Hin in Ht. destruct Ht as [_ [[Ha _] _]]. now apply Ha. }
    rewrite (filter_all (fun t => completed t =? 0)),
      (filter_nothing (fun t => completed t =? 1)); [split; reflexivity| |];
      intros t Ht; rewrite (H0 t Ht); reflexivity.
  - intros Hs.
    assert (H1 : forall t, In t (select_tasks st q) -> completed t = 1).
    { intros t Ht. apply Hin in Ht. destruct Ht as [_ [[_ Hc] _]]. now apply Hc. }
    rewrite (filter_nothing (fun t => completed t =? 0)),
      (filter_all (fun t => completed t =? 1)); [split; reflexivity| |];
      intros t Ht; rewrite (H1 t Ht); reflexivity.
  - destruct (Nat.eqb_spec
                (List.length (filter (fun t => completed t =? 0) (select_tasks st q))) 1)
      as [E|E]; split; intros H; try reflexivity; try assumption;
      try discriminate H; contradiction.
Qed.

(** X15 on [busy_store]: "2 active tasks, 2 completed". *)
Lemma counter_on_list_witness :
  TaskCounter (select_tasks busy_store (mkQuery JUndefined JUndefined JUndefined))
  = (2%nat, "tasks", 2%nat) /\
  (2 + 2 = List.length
             (select_tasks busy_store (mkQuery JUndefined JUndefined JUndefined)))%nat.
Proof.
  split; [vm_compute; reflexivity|].
  assert (Hr : reachable decimal_key busy_store).
  { unfold busy_store. apply reach_step. apply reach_step. apply reach_step.
    apply reach_init. }
  exact (proj1 (counter_on_list decimal_key busy_store
                  (mkQuery JUndefined JUndefined JUndefined) Hr)).
Defined.

(** ** Priority colours *)


